(** * bookingApp: the hotel and room controllers over the document store

    A shallow embedding of [api/controllers/hotel.js] and
    [api/controllers/room.js].  The handlers are Express middlewares
    [(req, res, next)]: what a handler does is the sequence of calls it makes on
    [res] and [next], together with its writes to the two collections.  Both are
    kept in an explicit [World] threaded through a state-and-exception monad. *)

From Stdlib Require Import List ZArith QArith Bool String Ascii Arith Lia.
From Stdlib Require Qcanon.
Import ListNotations.

Local Open Scope string_scope.
Local Open Scope list_scope.
Local Open Scope Z_scope.

(** ** The fragment of JavaScript values the handlers compute with *)

Module JS.

(** A JavaScript number.  Every finite double is a rational, and that rational
    is what [Fin] holds; a numeral is rounded to the nearest double, as the
    language rounds it (see [toDouble]).  A negative zero is kept as zero. *)
Inductive number : Type :=
| NaN
| PosInf
| NegInf
| Fin (q : Q).

(** The values a query parameter or a body field takes here: absent, a number,
    or a string.  (Repeated and nested query parameters, which the query
    parser turns into arrays and objects, are not part of the fragment.) *)
Inductive value : Type :=
| Undefined
| Num (n : number)
| Str (s : string).

Definition ofZ (z : Z) : number := Fin (inject_Z z).

Definition code (c : ascii) : nat := nat_of_ascii c.

(** StrWhiteSpaceChar among the ASCII characters: TAB, LF, VT, FF, CR, SP. *)
Definition isWhiteSpace (c : ascii) : bool :=
  let n := code c in
  ((9 <=? n) && (n <=? 13))%nat || (n =? 32)%nat.

Fixpoint dropWhile {A} (p : A -> bool) (l : list A) : list A :=
  match l with
  | [] => []
  | x :: r => if p x then dropWhile p r else l
  end.

Fixpoint span {A} (p : A -> bool) (l : list A) : list A * list A :=
  match l with
  | [] => ([], [])
  | x :: r => if p x then let '(a, b) := span p r in (x :: a, b) else ([], l)
  end.

Definition trim (l : list ascii) : list ascii :=
  rev (dropWhile isWhiteSpace (rev (dropWhile isWhiteSpace l))).

(** The value of a digit in a radix up to 16, if it is one. *)
Definition digitOf (radix : Z) (c : ascii) : option Z :=
  let n := Z.of_nat (code c) in
  let d :=
    if (48 <=? n) && (n <=? 57) then Some (n - 48)
    else if (97 <=? n) && (n <=? 102) then Some (n - 87)
    else if (65 <=? n) && (n <=? 70) then Some (n - 55)
    else None in
  match d with
  | Some v => if v <? radix then Some v else None
  | None => None
  end.

Definition isDigit (radix : Z) (c : ascii) : bool :=
  match digitOf radix c with Some _ => true | None => false end.

Definition digitsValue (radix : Z) (l : list ascii) : Z :=
  fold_left (fun acc c => radix * acc + match digitOf radix c with
                                         | Some v => v
                                         | None => 0
                                         end) l 0.

Definition isChar (s : string) (c : ascii) : bool :=
  match s with
  | String d EmptyString => Ascii.eqb c d
  | _ => false
  end.

(** ExponentPart_opt: nothing, or [e]/[E], an optional sign and digits. *)
Definition exponentPart (l : list ascii) : option Z :=
  match l with
  | [] => Some 0
  | e :: r =>
      if isChar "e" e || isChar "E" e then
        let '(neg, ds) :=
          match r with
          | s :: r' => if isChar "-" s then (true, r')
                       else if isChar "+" s then (false, r')
                       else (false, r)
          | [] => (false, r)
          end in
        match ds with
        | [] => None
        | _ => if forallb (isDigit 10) ds
               then Some (if neg then - digitsValue 10 ds else digitsValue 10 ds)
               else None
        end
      else None
  end.

(** mantissa * 10^k as a rational. *)
Definition scale10 (m k : Z) : Q :=
  if 0 <=? k then inject_Z (m * 10 ^ k)
  else Qred (Qmake m (Z.to_pos (10 ^ (- k)))).

(** m * 2^u as a rational. *)
Definition scale2 (m u : Z) : Q :=
  if 0 <=? u then inject_Z (m * 2 ^ u)
  else Qred (Qmake m (Z.to_pos (2 ^ (- u)))).

(** The double nearest to n / d for positive n and d, ties going to the even
    significand: with 2^e <= n / d < 2^(e+1), the quotient is rounded to a
    multiple of 2^(e - 52), or of 2^-1074 in the subnormal range, and a
    result of 2^1024 or more is Infinity. *)
Definition roundPositive (n d : Z) : number :=
  let e0 := Z.log2 n - Z.log2 d in
  let below := if 0 <=? e0 then n <? d * 2 ^ e0 else n * 2 ^ (- e0) <? d in
  let e := if below then e0 - 1 else e0 in
  let u := Z.max (e - 52) (- 1074) in
  let num := if u <? 0 then n * 2 ^ (- u) else n in
  let den := if u <? 0 then d else d * 2 ^ u in
  let t := num / den in
  let r := num mod den in
  let m := if 2 * r <? den then t
           else if den <? 2 * r then t + 1
           else if Z.even t then t else t + 1 in
  if (0 <=? u) && (2 ^ 1024 <=? m * 2 ^ u) then PosInf else Fin (scale2 m u).

(** The Number value of a mathematical value: the nearest double. *)
Definition toDouble (q : Q) : number :=
  match Qnum q with
  | 0 => Fin 0
  | Zpos n => roundPositive (Zpos n) (Zpos (Qden q))
  | Zneg n =>
      match roundPositive (Zpos n) (Zpos (Qden q)) with
      | Fin v => Fin (Qopp v)
      | _ => NegInf
      end
  end.

(** StrUnsignedDecimalLiteral; [None] when the text is not one. *)
Definition unsignedDecimal (l : list ascii) : option number :=
  if list_eq_dec ascii_dec l (list_ascii_of_string "Infinity") then Some PosInf
  else
    let '(ip, r1) := span (isDigit 10) l in
    let '(fp, r2) :=
      match r1 with
      | d :: r => if isChar "." d then span (isDigit 10) r else ([], r1)
      | [] => ([], r1)
      end in
    match ip, fp with
    | [], [] => None
    | _, _ =>
        match exponentPart r2 with
        | Some e =>
            Some (toDouble (scale10 (digitsValue 10 (ip ++ fp))
                                    (e - Z.of_nat (List.length fp))))
        | None => None
        end
    end.

(** NonDecimalIntegerLiteral: [0x], [0o], [0b] and their capitals. *)
Definition nonDecimal (l : list ascii) : option number :=
  match l with
  | z :: p :: ds =>
      if isChar "0" z then
        let radix :=
          if isChar "x" p || isChar "X" p then Some 16
          else if isChar "o" p || isChar "O" p then Some 8
          else if isChar "b" p || isChar "B" p then Some 2
          else None in
        match radix, ds with
        | Some r, _ :: _ =>
            if forallb (isDigit r) ds
            then Some (toDouble (inject_Z (digitsValue r ds)))
            else None
        | _, _ => None
        end
      else None
  | _ => None
  end.

Definition negate (n : number) : number :=
  match n with
  | NaN => NaN
  | PosInf => NegInf
  | NegInf => PosInf
  | Fin q => Fin (Qopp q)
  end.

(** StringToNumber: white space is trimmed, the empty text is 0, and a text
    that is no StringNumericLiteral is NaN. *)
Definition StringToNumber (s : string) : number :=
  match trim (list_ascii_of_string s) with
  | [] => ofZ 0
  | (c :: r) as t =>
      let parsed :=
        match nonDecimal t with
        | Some n => Some n
        | None =>
            if isChar "-" c then option_map negate (unsignedDecimal r)
            else if isChar "+" c then unsignedDecimal r
            else unsignedDecimal t
        end in
      match parsed with
      | Some n => n
      | None => NaN
      end
  end.

Definition ToNumber (v : value) : number :=
  match v with
  | Undefined => NaN
  | Num n => n
  | Str s => StringToNumber s
  end.

(** ToInt32: truncate toward zero, reduce modulo 2^32 into the signed range;
    NaN and the infinities give 0. *)
Definition wrap32 (z : Z) : Z :=
  let m := z mod 2 ^ 32 in
  if 2 ^ 31 <=? m then m - 2 ^ 32 else m.

Definition ToInt32 (n : number) : Z :=
  match n with
  | Fin q => wrap32 (Z.quot (Qnum q) (Zpos (Qden q)))
  | _ => 0
  end.

(** [a | b] *)
Definition bitor (a b : value) : Z :=
  Z.lor (ToInt32 (ToNumber a)) (ToInt32 (ToNumber b)).

Definition ToBoolean (v : value) : bool :=
  match v with
  | Undefined => false
  | Num NaN => false
  | Num (Fin q) => negb (Qeq_bool q 0)
  | Num _ => true
  | Str s => negb (String.eqb s "")
  end.

(** [a || b] *)
Definition or (a b : value) : value :=
  if ToBoolean a then a else b.

(** [String.prototype.split] with a one-character separator. *)
Fixpoint split (sep : ascii) (s : string) : list string :=
  match s with
  | EmptyString => [""]
  | String c r =>
      if Ascii.eqb c sep then "" :: split sep r
      else match split sep r with
           | h :: t => String c h :: t
           | [] => [String c ""]
           end
  end.

End JS.

(** ** Documents *)

(** An [_id] after the driver's cast of the route parameter.  A parameter that
    does not cast is one of the driver faults of the [World] below. *)
Definition ObjectId := nat.
Bind Scope nat_scope with ObjectId.

Definition Qltb (a b : Q) : bool := negb (Qle_bool b a).

Module HotelDoc.

(** Modelled from the spec: the Hotel schema ([api/models/Hotel.js] is not
    among the sources); the fields are those of the spec's data model. *)
Record t : Type := mk {
  _id : ObjectId;
  name : string;
  type : string;
  city : string;
  address : string;
  distance : string;
  photos : list string;
  title : string;
  desc : string;
  rating : option Q;
  rooms : list ObjectId;
  cheapestPrice : Q;
  featured : bool
}.

(** A request body for [$set]: the fields it names. *)
Record patch : Type := mkPatch {
  p_name : option string;
  p_type : option string;
  p_city : option string;
  p_address : option string;
  p_distance : option string;
  p_photos : option (list string);
  p_title : option string;
  p_desc : option string;
  p_rating : option Q;
  p_rooms : option (list ObjectId);
  p_cheapestPrice : option Q;
  p_featured : option bool
}.

Definition over {A} (o : option A) (old : A) : A :=
  match o with Some v => v | None => old end.

Definition set (p : patch) (h : t) : t :=
  mk (_id h)
     (over (p_name p) (name h))
     (over (p_type p) (type h))
     (over (p_city p) (city h))
     (over (p_address p) (address h))
     (over (p_distance p) (distance h))
     (over (p_photos p) (photos h))
     (over (p_title p) (title h))
     (over (p_desc p) (desc h))
     (match p_rating p with Some r => Some r | None => rating h end)
     (over (p_rooms p) (rooms h))
     (over (p_cheapestPrice p) (cheapestPrice h))
     (over (p_featured p) (featured h)).

Definition withRooms (rs : list ObjectId) (h : t) : t :=
  mk (_id h) (name h) (type h) (city h) (address h) (distance h) (photos h)
     (title h) (desc h) (rating h) rs (cheapestPrice h) (featured h).

End HotelDoc.

Module RoomDoc.

Record roomNumber : Type := mkNumber {
  number : Z;
  unavailableDates : list Z
}.

(** Modelled from the spec: the Room schema ([api/models/Room.js] is not
    among the sources); the fields are those of the spec's data model. *)
Record t : Type := mk {
  _id : ObjectId;
  title : string;
  price : Q;
  maxPeople : Z;
  desc : string;
  roomNumbers : list roomNumber
}.

Record patch : Type := mkPatch {
  p_title : option string;
  p_price : option Q;
  p_maxPeople : option Z;
  p_desc : option string;
  p_roomNumbers : option (list roomNumber)
}.

Definition set (p : patch) (r : t) : t :=
  mk (_id r)
     (HotelDoc.over (p_title p) (title r))
     (HotelDoc.over (p_price p) (price r))
     (HotelDoc.over (p_maxPeople p) (maxPeople r))
     (HotelDoc.over (p_desc p) (desc r))
     (HotelDoc.over (p_roomNumbers p) (roomNumbers r)).

End RoomDoc.

(** ** Responses, errors and the world *)

Inductive Error : Type :=
| DriverError (what : string)   (* any rejection of a store call *)
| DuplicateKey
| CastError (path : string)
| TypeError (what : string).

(** What [res.json] is given. *)
#[local] Unset Elimination Schemes.
Inductive Json : Type :=
| JNull
| JString (s : string)
| JNumber (n : nat)
| JHotel (h : HotelDoc.t)
| JRoom (r : RoomDoc.t)
| JObject (fields : list (string * Json))
| JArray (items : list Json).
#[local] Set Elimination Schemes.

Definition nullable {A} (f : A -> Json) (o : option A) : Json :=
  match o with Some a => f a | None => JNull end.

(** A call the handler makes on its [res] or [next] argument. *)
Inductive Event : Type :=
| Respond (status : nat) (body : Json)   (* res.status(status).json(body) *)
| Next (err : Error).                    (* next(err) *)

(** The two collections in natural (insertion) order, the faults the store
    will raise, one entry per store call still to come ([None]: the call goes
    through; an exhausted list: every call goes through), and the calls made
    so far on [res] and [next]. *)
Record World : Type := mkWorld {
  hotels : list HotelDoc.t;
  rooms : list RoomDoc.t;
  faults : list (option Error);
  trace : list Event
}.

Inductive Outcome (A : Type) : Type :=
| Ok (a : A)
| Thrown (e : Error).
Arguments Ok {A} a.
Arguments Thrown {A} e.

Definition M (A : Type) : Type := World -> Outcome A * World.

Definition ret {A} (a : A) : M A := fun w => (Ok a, w).

Definition throw {A} (e : Error) : M A := fun w => (Thrown e, w).

Definition bind {A B} (m : M A) (k : A -> M B) : M B :=
  fun w => match m w with
           | (Ok a, w') => k a w'
           | (Thrown e, w') => (Thrown e, w')
           end.

(** [try { body } catch (err) { handler }] *)
Definition tryCatch {A} (body : M A) (handler : Error -> M A) : M A :=
  fun w => match body w with
           | (Ok a, w') => (Ok a, w')
           | (Thrown e, w') => handler e w'
           end.

Declare Scope handler_scope.
Delimit Scope handler_scope with handler.
Notation "x <- m ;; k" := (bind m (fun x => k))
  (at level 100, m at next level, right associativity) : handler_scope.
Notation "m ;; k" := (bind m (fun _ => k))
  (at level 100, right associativity) : handler_scope.
Local Open Scope handler_scope.

(** [await Promise.all(l.map(f))].  Every call is started, in the order of
    [l], whether or not an earlier one is rejected; the result is the list of
    the results in that order, or a rejection as soon as one call is
    rejected.  When several calls are rejected the code passes on whichever
    of them settles first; here it is the first in the order of [l]. *)
Fixpoint mapM {A B} (f : A -> M B) (l : list A) : M (list B) :=
  match l with
  | [] => ret []
  | a :: r =>
      fun w =>
        let '(first, w1) := f a w in
        let '(rest, w2) := mapM f r w1 in
        (match first, rest with
         | Ok b, Ok bs => Ok (b :: bs)
         | Thrown e, _ => Thrown e
         | Ok _, Thrown e => Thrown e
         end, w2)
  end.

Definition emit (ev : Event) : M unit :=
  fun w => (Ok tt, mkWorld (hotels w) (rooms w) (faults w) (trace w ++ [ev])).

Definition respond (status : nat) (body : Json) : M unit :=
  emit (Respond status body).

Definition next (err : Error) : M unit := emit (Next err).

(** One call to the store: the next fault, if any, rejects it before it
    reads or writes anything. *)
Definition storeCall {A} (op : World -> A * World) : M A :=
  fun w =>
    match faults w with
    | Some e :: fs => (Thrown e, mkWorld (hotels w) (rooms w) fs (trace w))
    | None :: fs =>
        let '(a, w') := op (mkWorld (hotels w) (rooms w) fs (trace w)) in
        (Ok a, w')
    | [] => let '(a, w') := op w in (Ok a, w')
    end.

Definition setHotels (hs : list HotelDoc.t) (w : World) : World :=
  mkWorld hs (rooms w) (faults w) (trace w).

Definition setRooms (rs : list RoomDoc.t) (w : World) : World :=
  mkWorld (hotels w) rs (faults w) (trace w).

Fixpoint updateFirst {A} (p : A -> bool) (f : A -> A) (l : list A) : list A :=
  match l with
  | [] => []
  | x :: r => if p x then f x :: r else x :: updateFirst p f r
  end.

Fixpoint deleteFirst {A} (p : A -> bool) (l : list A) : list A :=
  match l with
  | [] => []
  | x :: r => if p x then r else x :: deleteFirst p r
  end.

(** ** The store driver

    Mongoose's model methods over the two collections.  A lookup by id that
    matches no document resolves to [null] ([None] here); it does not reject. *)

(** The driver's cast of a value to the Number type of a schema path: [null]
    and the empty string give [null], a string or number that is NaN is
    rejected. *)
Definition castNumber (path : string) (v : JS.value)
  : Outcome (option JS.number) :=
  match v with
  | JS.Undefined => Ok None
  | JS.Str s =>
      if String.eqb s "" then Ok None
      else match JS.StringToNumber s with
           | JS.NaN => Thrown (CastError path)
           | n => Ok (Some n)
           end
  | JS.Num JS.NaN => Thrown (CastError path)
  | JS.Num n => Ok (Some n)
  end.

(** [doc.path < bound] as the store evaluates [$lt] on a numeric path. *)
Definition ltBound (x : Q) (bound : option JS.number) : bool :=
  match bound with
  | Some (JS.Fin b) => Qltb x b
  | Some JS.PosInf => true
  | _ => false
  end.

(** [doc.path > bound] for [$gt]. *)
Definition gtBound (x : Q) (bound : option JS.number) : bool :=
  match bound with
  | Some (JS.Fin b) => Qltb b x
  | Some JS.NegInf => true
  | _ => false
  end.

(** The cursor's limit: none when absent or 0, the first |n| documents for an
    integer n, a rejection otherwise. *)
Definition applyLimit {A} (lim : option JS.number) (l : list A)
  : Outcome (list A) :=
  match lim with
  | None => Ok l
  | Some (JS.Fin q) =>
      if Pos.eqb (Qden (Qred q)) 1 then
        let n := Z.abs_nat (Qnum (Qred q)) in
        Ok (match n with O => l | _ => firstn n l end)
      else Thrown (DriverError "limit")
  | Some _ => Thrown (DriverError "limit")
  end.

Module Hotel.

Definition hasId (id : ObjectId) (h : HotelDoc.t) : bool :=
  Nat.eqb (HotelDoc._id h) id.

(** [new Hotel(body).save()]: inserts the document; the unique index on
    [_id] rejects an id already stored. *)
Definition save (doc : HotelDoc.t) : M HotelDoc.t :=
  fun w =>
    match storeCall (fun w => (existsb (hasId (HotelDoc._id doc)) (hotels w), w)) w with
    | (Ok true, w') => (Thrown DuplicateKey, w')
    | (Ok false, w') => (Ok doc, setHotels (hotels w' ++ [doc]) w')
    | (Thrown e, w') => (Thrown e, w')
    end.

Definition findById (id : ObjectId) : M (option HotelDoc.t) :=
  storeCall (fun w => (List.find (hasId id) (hotels w), w)).

(** The update documents the controllers pass. *)
Inductive update : Type :=
| Set_ (body : HotelDoc.patch)     (* { $set: body } *)
| Push_rooms (room : ObjectId)     (* { $push: { rooms: room } } *)
| Pull_rooms (room : ObjectId).    (* { $pull: { rooms: room } } *)

Definition applyUpdate (u : update) (h : HotelDoc.t) : HotelDoc.t :=
  match u with
  | Set_ body => HotelDoc.set body h
  | Push_rooms r => HotelDoc.withRooms (HotelDoc.rooms h ++ [r]) h
  | Pull_rooms r =>
      HotelDoc.withRooms
        (filter (fun x => negb (Nat.eqb x r)) (HotelDoc.rooms h)) h
  end.

(** [findByIdAndUpdate(id, u, { new })]: updates the document with that id, if
    there is one, and resolves to it (as updated when [new] is set, as it was
    otherwise), or to [null]. *)
Definition findByIdAndUpdate (id : ObjectId) (u : update) (new : bool)
  : M (option HotelDoc.t) :=
  storeCall (fun w =>
    match List.find (hasId id) (hotels w) with
    | Some h =>
        (Some (if new then applyUpdate u h else h),
         setHotels (updateFirst (hasId id) (applyUpdate u) (hotels w)) w)
    | None => (None, w)
    end).

Definition findByIdAndDelete (id : ObjectId) : M (option HotelDoc.t) :=
  storeCall (fun w =>
    (List.find (hasId id) (hotels w),
     setHotels (deleteFirst (hasId id) (hotels w)) w)).

(** The filters of [countDocuments]. *)
Inductive filter : Type :=
| ByCity (c : string)    (* { city: c } *)
| ByType (t : string).   (* { type: t } *)

Definition matches (f : filter) (h : HotelDoc.t) : bool :=
  match f with
  | ByCity c => String.eqb (HotelDoc.city h) c
  | ByType t => String.eqb (HotelDoc.type h) t
  end.

Definition count (f : filter) (hs : list HotelDoc.t) : nat :=
  List.length (List.filter (matches f) hs).

Definition countDocuments (f : filter) : M nat :=
  storeCall (fun w => (count f (hotels w), w)).

Section Find.

(** How the driver treats one attribute filter [key: value] taken from the
    query string: the condition on a document it amounts to once the value
    is cast to the type of that path ([None]: the value does not cast).  It
    depends on the schema alone, which is not among the sources. *)
Variable castFilter : string -> JS.value -> option (HotelDoc.t -> bool).

Fixpoint castOthers (others : list (string * JS.value))
  : Outcome (HotelDoc.t -> bool) :=
  match others with
  | [] => Ok (fun _ => true)
  | (k, v) :: r =>
      match castFilter k v with
      | None => Thrown (CastError k)
      | Some p =>
          match castOthers r with
          | Ok ps => Ok (fun h => p h && ps h)
          | Thrown e => Thrown e
          end
      end
  end.

Definition lift {A} (o : Outcome A) : M A := fun w => (o, w).

(** [Hotel.find({ ...others, cheapestPrice: { $gt: gt, $lt: lt } })
    .limit(limit)], awaited.  [limit] casts a string when it is called; the
    filter is cast when the query runs. *)
Definition find (others : list (string * JS.value)) (gt : Z) (lt : JS.value)
    (limit : JS.value) : M (list HotelDoc.t) :=
  lim <- lift (match limit with
               | JS.Str _ => castNumber "limit" limit
               | JS.Num n => Ok (Some n)
               | JS.Undefined => Ok None
               end) ;;
  cond <- lift (castOthers others) ;;
  lo <- lift (castNumber "cheapestPrice" (JS.Num (JS.ofZ gt))) ;;
  hi <- lift (castNumber "cheapestPrice" lt) ;;
  found <- storeCall (fun w =>
    (List.filter (fun h => cond h
                           && gtBound (HotelDoc.cheapestPrice h) lo
                           && ltBound (HotelDoc.cheapestPrice h) hi)
                 (hotels w), w)) ;;
  lift (applyLimit lim found).

End Find.

End Hotel.

Module Room.

Definition hasId (id : ObjectId) (r : RoomDoc.t) : bool :=
  Nat.eqb (RoomDoc._id r) id.

Definition save (doc : RoomDoc.t) : M RoomDoc.t :=
  fun w =>
    match storeCall (fun w => (existsb (hasId (RoomDoc._id doc)) (rooms w), w)) w with
    | (Ok true, w') => (Thrown DuplicateKey, w')
    | (Ok false, w') => (Ok doc, setRooms (rooms w' ++ [doc]) w')
    | (Thrown e, w') => (Thrown e, w')
    end.

Definition findById (id : ObjectId) : M (option RoomDoc.t) :=
  storeCall (fun w => (List.find (hasId id) (rooms w), w)).

(** [findByIdAndUpdate(id, { $set: body }, { new: true })] *)
Definition findByIdAndUpdate (id : ObjectId) (body : RoomDoc.patch)
  : M (option RoomDoc.t) :=
  storeCall (fun w =>
    match List.find (hasId id) (rooms w) with
    | Some r =>
        (Some (RoomDoc.set body r),
         setRooms (updateFirst (hasId id) (RoomDoc.set body) (rooms w)) w)
    | None => (None, w)
    end).

Definition findByIdAndDelete (id : ObjectId) : M (option RoomDoc.t) :=
  storeCall (fun w =>
    (List.find (hasId id) (rooms w),
     setRooms (deleteFirst (hasId id) (rooms w)) w)).

Definition find : M (list RoomDoc.t) :=
  storeCall (fun w => (rooms w, w)).

End Room.

(** ** The controllers *)

(** [req.query]: the parameters of the query string, by name. *)
Definition Query := list (string * JS.value).

Fixpoint get (k : string) (q : Query) : JS.value :=
  match q with
  | [] => JS.Undefined
  | (k', v) :: r => if String.eqb k' k then v else get k r
  end.

(** The rest of an object once the keys [ks] are taken out of it. *)
Definition without (ks : list string) (q : Query) : Query :=
  List.filter (fun kv => negb (existsb (String.eqb (fst kv)) ks)) q.

Definition one : JS.value := JS.Num (JS.ofZ 1).
Definition n999 : JS.value := JS.Num (JS.ofZ 999).

(** hotel.js *)

Definition createHotel (newHotel : HotelDoc.t) : M unit :=
  tryCatch
    (savedHotel <- Hotel.save newHotel ;;
     respond 200 (JHotel savedHotel))
    (fun err => next err).

Definition updateHotel (id : ObjectId) (body : HotelDoc.patch) : M unit :=
  tryCatch
    (updatedHotel <- Hotel.findByIdAndUpdate id (Hotel.Set_ body) true ;;
     respond 200 (nullable JHotel updatedHotel))
    (fun err => next err).

Definition deleteHotel (id : ObjectId) : M unit :=
  tryCatch
    (Hotel.findByIdAndDelete id ;;
     respond 200 (JString "Hotel has been deleted"))
    (fun err => next err).

Definition getHotel (id : ObjectId) : M unit :=
  tryCatch
    (hotel <- Hotel.findById id ;;
     respond 200 (nullable JHotel hotel))
    (fun err => next err).

Section GetHotels.

Variable castFilter : string -> JS.value -> option (HotelDoc.t -> bool).

(** The lower and the upper bound [getHotels] puts on [cheapestPrice]. *)
Definition lowerBound (min : JS.value) : Z := JS.bitor min one.
Definition upperBound (max : JS.value) : JS.value := JS.or max n999.

Definition getHotels (query : Query) : M unit :=
  let min := get "min" query in
  let max := get "max" query in
  let others := without ["min"; "max"] query in
  tryCatch
    (hotels <- Hotel.find castFilter
                 (without ["cheapestPrice"] others)
                 (lowerBound min) (upperBound max)
                 (get "limit" query) ;;
     respond 200 (JArray (map JHotel hotels)))
    (fun err => next err).

End GetHotels.

(** [req.query.cities] is split outside the [try]: without the parameter the
    handler's promise is rejected and nothing is called. *)
Definition countByCity (cities : option string) : M unit :=
  match cities with
  | None => throw (TypeError "req.query.cities is undefined")
  | Some s =>
      let cities := JS.split "," s in
      tryCatch
        (list <- mapM (fun city => Hotel.countDocuments (Hotel.ByCity city))
                      cities ;;
         respond 200 (JArray (map JNumber list)))
        (fun err => next err)
  end.

Definition typeCount (label : string) (n : nat) : Json :=
  JObject [("type", JString label); ("count", JNumber n)].

Definition countByType : M unit :=
  tryCatch
    (hotelCount <- Hotel.countDocuments (Hotel.ByType "hotel") ;;
     apartmentCount <- Hotel.countDocuments (Hotel.ByType "apartment") ;;
     resortCount <- Hotel.countDocuments (Hotel.ByType "resort") ;;
     villaCount <- Hotel.countDocuments (Hotel.ByType "villa") ;;
     cabinCount <- Hotel.countDocuments (Hotel.ByType "cabin") ;;
     respond 200 (JArray [typeCount "hotel" hotelCount;
                          typeCount "apartments" apartmentCount;
                          typeCount "resorts" resortCount;
                          typeCount "villas" villaCount;
                          typeCount "cabins" cabinCount]))
    (fun err => next err).

Definition getHotelRooms (id : ObjectId) : M unit :=
  tryCatch
    (hotel <- Hotel.findById id ;;
     match hotel with
     | None => throw (TypeError "hotel is null")
     | Some h =>
         list <- mapM (fun room => Room.findById room) (HotelDoc.rooms h) ;;
         respond 200 (JArray (map (nullable JRoom) list))
     end)
    (fun error => next error).

(** room.js *)

Definition createRoom (hotelId : ObjectId) (newRoom : RoomDoc.t) : M unit :=
  tryCatch
    (savedRoom <- Room.save newRoom ;;
     tryCatch
       (Hotel.findByIdAndUpdate hotelId
          (Hotel.Push_rooms (RoomDoc._id savedRoom)) false ;;
        ret tt)
       (fun error => next error) ;;
     respond 200 (JRoom savedRoom))
    (fun error => next error).

Definition updateRoom (id : ObjectId) (body : RoomDoc.patch) : M unit :=
  tryCatch
    (updatedRoom <- Room.findByIdAndUpdate id body ;;
     respond 200 (nullable JRoom updatedRoom))
    (fun err => next err).

Definition deleteRoom (hotelId id : ObjectId) : M unit :=
  tryCatch
    (Room.findByIdAndDelete id ;;
     tryCatch
       (Hotel.findByIdAndUpdate hotelId (Hotel.Pull_rooms id) false ;;
        ret tt)
       (fun error => next error) ;;
     respond 200 (JString "Room has been deleted"))
    (fun err => next err).

Definition getRoom (id : ObjectId) : M unit :=
  tryCatch
    (room <- Room.findById id ;;
     respond 200 (nullable JRoom room))
    (fun err => next err).

Definition getRooms : M unit :=
  tryCatch
    (rooms <- Room.find ;;
     respond 200 (JArray (map JRoom rooms)))
    (fun err => next err).

(** Running a handler on a request: the world it leaves, whose [trace] holds
    the handler's calls on [res] and [next]. *)
Definition run (h : M unit) (w : World) : World := snd (h w).

(** A world with nothing written to the response yet and no fault to come. *)
Definition quiet (hs : list HotelDoc.t) (rs : list RoomDoc.t) : World :=
  mkWorld hs rs [] [].

Definition isNext (ev : Event) : bool :=
  match ev with Next _ => true | Respond _ _ => false end.

(** The handler passed an error on. *)
Definition reportsError (w : World) : bool := existsb isNext (trace w).

(** ** Vocabulary of the statements *)

(** The price range [getHotels] asks the store for. *)
Definition inRange (lo : Z) (hi : option JS.number) (h : HotelDoc.t) : bool :=
  Qltb (inject_Z lo) (HotelDoc.cheapestPrice h)
  && ltBound (HotelDoc.cheapestPrice h) hi.

(** Sample data for the concrete runs below. *)
Definition sampleHotel (id : ObjectId) (type city : string) (price : Q)
    (rooms : list ObjectId) : HotelDoc.t :=
  HotelDoc.mk id "Hotel" type city "1 Main St" "500" [] "A stay" "" None
              rooms price false.

Definition sampleRoom (id : ObjectId) : RoomDoc.t :=
  RoomDoc.mk id "Double" 80 2 "" [RoomDoc.mkNumber 101 []].

(** A schema that knows the [city] path and drops every other key. *)
Definition sampleCast (k : string) (v : JS.value)
  : option (HotelDoc.t -> bool) :=
  if String.eqb k "city" then
    match v with
    | JS.Str s => Some (fun h => String.eqb (HotelDoc.city h) s)
    | _ => None
    end
  else Some (fun _ => true).

Definition closedRange (lo hi : Q) (h : HotelDoc.t) : bool :=
  Qle_bool lo (HotelDoc.cheapestPrice h)
  && Qle_bool (HotelDoc.cheapestPrice h) hi.

(** The world a later request starts from: the same store, a fresh [res]. *)
Definition afterwards (w : World) : World :=
  mkWorld (hotels w) (rooms w) (faults w) [].

(** A body that sets the [name] alone. *)
Definition renamePatch (n : string) : HotelDoc.patch :=
  HotelDoc.mkPatch (Some n) None None None None None None None None None None
                   None.

(** A city name the caller can put in a comma-delimited list. *)
Fixpoint commaFree (s : string) : bool :=
  match s with
  | EmptyString => true
  | String c r => negb (Ascii.eqb c ",") && commaFree r
  end.

(** The number of stored Hotels whose [city] is exactly [n]. *)
Definition inCity (hs : list HotelDoc.t) (n : string) : nat :=
  List.length (List.filter (fun h => String.eqb (HotelDoc.city h) n) hs).

(** A computation keeps a property of the two collections: whatever world
    it starts in, faults included, the property holds after it if it held
    before. *)
Definition keeps (P : list HotelDoc.t -> list RoomDoc.t -> Prop)
    {A} (m : M A) : Prop :=
  forall w, P (hotels w) (rooms w) ->
            P (hotels (snd (m w))) (rooms (snd (m w))).

(** A computation calls neither [res] nor [next]. *)
Definition silent {A} (m : M A) : Prop :=
  forall w, trace (snd (m w)) = trace w.

(** The body of a [try]: it either answers once and completes, or throws
    having called nothing. *)
Definition answersOrThrows (m : M unit) : Prop :=
  forall w,
    (exists status body,
        fst (m w) = Ok tt
        /\ trace (snd (m w)) = trace w ++ [Respond status body])
    \/ (exists e, fst (m w) = Thrown e /\ trace (snd (m w)) = trace w).

(** A handler makes exactly one call on [res] or [next], in any world. *)
Definition answersOnce (h : M unit) : Prop :=
  forall w, exists ev, trace (run h w) = trace w ++ [ev].

(** The [_id] index of each collection is unique. *)
Definition uniqueIds (hs : list HotelDoc.t) (rs : list RoomDoc.t) : Prop :=
  NoDup (map HotelDoc._id hs) /\ NoDup (map RoomDoc._id rs).

(** A body that names no field. *)
Definition emptyBody : HotelDoc.patch :=
  HotelDoc.mkPatch None None None None None None None None None None None None.

(** The number of commas of a string. *)
Fixpoint commas (s : string) : nat :=
  match s with
  | EmptyString => O
  | String c r => if Ascii.eqb c "," then S (commas r) else commas r
  end.

(** The cast [Hotel.find] makes of the value given to [limit]: a string is
    cast to a number, a number is taken as it is. *)
Definition castLimit (limit : JS.value) : Outcome (option JS.number) :=
  match limit with
  | JS.Str _ => castNumber "limit" limit
  | JS.Num n => Ok (Some n)
  | JS.Undefined => Ok None
  end.

(** * Properties *)

(** ** Plumbing shared by the proofs *)

Lemma Qltb_lt (a b : Q) : Qltb a b = true <-> (a < b)%Q.
Proof.
  unfold Qltb. rewrite negb_true_iff. split; intro H.
  - apply Qnot_le_lt. intro L. apply Qle_bool_iff in L. congruence.
  - destruct (Qle_bool b a) eqn:E; trivial.
    apply Qle_bool_iff in E. exfalso. exact (Qlt_not_le _ _ H E).
Qed.

(** Reads that leave the world alone map over a list in its order. *)
Lemma mapM_reads {A B} (f : A -> M B) (g : A -> B) (w : World) (l : list A) :
  (forall a, f a w = (Ok (g a), w)) ->
  mapM f l w = (Ok (map g l), w).
Proof.
  intro H. induction l as [| a l IH]; simpl; trivial.
  rewrite H, IH. reflexivity.
Qed.

Lemma find_quiet cf others gt lt cond hi hs rs tr :
  Hotel.castOthers cf others = Ok cond ->
  castNumber "cheapestPrice" lt = Ok hi ->
  Hotel.find cf others gt lt JS.Undefined (mkWorld hs rs [] tr)
  = (Ok (List.filter (fun h => cond h && inRange gt hi h) hs),
     mkWorld hs rs [] tr).
Proof.
  intros Hc Hl. unfold Hotel.find, bind, Hotel.lift.
  rewrite Hc, Hl. simpl.
  f_equal. f_equal. apply filter_ext. intro h. unfold inRange.
  rewrite andb_assoc. reflexivity.
Qed.

(** [getHotels] on a query that names no limit and whose filters cast. *)
Lemma getHotels_quiet cf (q : Query) cond hi hs rs :
  get "limit" q = JS.Undefined ->
  Hotel.castOthers cf (without ["cheapestPrice"] (without ["min"; "max"] q))
  = Ok cond ->
  castNumber "cheapestPrice" (upperBound (get "max" q)) = Ok hi ->
  run (getHotels cf q) (quiet hs rs)
  = mkWorld hs rs []
      [Respond 200
         (JArray (map JHotel
            (List.filter
               (fun h => cond h && inRange (lowerBound (get "min" q)) hi h)
               hs)))].
Proof.
  intros Hlim Hc Hhi. unfold run, getHotels, tryCatch, bind, quiet.
  rewrite Hlim. rewrite (find_quiet _ _ _ _ _ _ _ _ _ Hc Hhi). reflexivity.
Qed.

(** ** The lower price bound *)

(** C9: [getHotels] bounds the price from below by [min | 1], the bitwise OR
    of the [min] parameter with 1; that bound is 1 for the string "abc", 15 for
    the string "15", and 1 for the number 0. *)
Theorem getHotels_lower_bound_bitor :
  (forall cf (min : JS.value) hs rs,
      run (getHotels cf [("min", min)]) (quiet hs rs)
      = mkWorld hs rs []
          [Respond 200
             (JArray (map JHotel
                (List.filter
                   (inRange (Z.lor (JS.ToInt32 (JS.ToNumber min)) 1)
                            (Some (JS.ofZ 999)))
                   hs)))])
  /\ lowerBound (JS.Str "abc") = 1
  /\ lowerBound (JS.Str "15") = 15
  /\ lowerBound (JS.Num (JS.ofZ 0)) = 1.
Proof.
  split; [| repeat split; vm_compute; reflexivity].
  intros cf min hs rs.
  rewrite (getHotels_quiet cf _ (fun _ => true) (Some (JS.ofZ 999)));
    try reflexivity.
Qed.

(** ** The price range of [getHotels] *)

(** Against C1 as stated.  Hotels priced 50, 51 and 150 all lie in [50, 150],
    yet a search with bounds 50 and 150 (the [min] and [max] parameters, as
    numbers or as the query string has them) returns only the one priced 100;
    with no bounds, hotels priced 1 and 999 lie in [1, 999] and neither is
    returned. *)
Lemma getHotels_closed_range_counterexample :
  let h50 := sampleHotel 1 "hotel" "Paris" 50 [] in
  let h51 := sampleHotel 2 "hotel" "Paris" 51 [] in
  let h100 := sampleHotel 3 "hotel" "Paris" 100 [] in
  let h150 := sampleHotel 4 "hotel" "Paris" 150 [] in
  let h1 := sampleHotel 5 "hotel" "Paris" 1 [] in
  let h999 := sampleHotel 6 "hotel" "Paris" 999 [] in
  List.filter (closedRange 50 150) [h50; h51; h100; h150]
    = [h50; h51; h100; h150]
  /\ trace (run (getHotels sampleCast
                   [("min", JS.Num (JS.ofZ 50)); ("max", JS.Num (JS.ofZ 150))])
                (quiet [h50; h51; h100; h150] []))
     = [Respond 200 (JArray [JHotel h100])]
  /\ trace (run (getHotels sampleCast
                   [("min", JS.Str "50"); ("max", JS.Str "150")])
                (quiet [h50; h51; h100; h150] []))
     = [Respond 200 (JArray [JHotel h100])]
  /\ List.filter (closedRange 1 999) [h1; h999] = [h1; h999]
  /\ trace (run (getHotels sampleCast []) (quiet [h1; h999] []))
     = [Respond 200 (JArray [])].
Proof. vm_compute. repeat split. Qed.

Lemma inRange_iff lo (hi : Q) h :
  inRange lo (Some (JS.Fin hi)) h = true
  <-> (inject_Z lo < HotelDoc.cheapestPrice h
       /\ HotelDoc.cheapestPrice h < hi)%Q.
Proof.
  unfold inRange, ltBound. rewrite andb_true_iff, !Qltb_lt. tauto.
Qed.

(** C1, amended: a search with an upper bound of 150 returns exactly the
    stored Hotels priced strictly below 150 and strictly above the lower bound
    the handler derives from the [min] parameter, in storage order; with
    neither bound it returns exactly those priced strictly between 1 and
    999. *)
Theorem getHotels_open_price_range :
  forall cf (min : JS.value) hs rs,
    run (getHotels cf [("min", min); ("max", JS.Num (JS.ofZ 150))])
        (quiet hs rs)
    = mkWorld hs rs []
        [Respond 200
           (JArray (map JHotel
              (List.filter (inRange (lowerBound min) (Some (JS.ofZ 150))) hs)))]
    /\ run (getHotels cf [("min", min); ("max", JS.Str "150")]) (quiet hs rs)
       = mkWorld hs rs []
           [Respond 200
              (JArray (map JHotel
                 (List.filter (inRange (lowerBound min) (Some (JS.ofZ 150)))
                              hs)))]
    /\ run (getHotels cf []) (quiet hs rs)
       = mkWorld hs rs []
           [Respond 200
              (JArray (map JHotel
                 (List.filter (inRange 1 (Some (JS.ofZ 999))) hs)))]
    /\ (forall lo hi h,
          In h (List.filter (inRange lo (Some (JS.ofZ hi))) hs)
          <-> In h hs
              /\ (inject_Z lo < HotelDoc.cheapestPrice h
                  /\ HotelDoc.cheapestPrice h < inject_Z hi)%Q).
Proof.
  intros cf min hs rs. split; [| split; [| split; [| intros lo hi h; split]]].
  - rewrite (getHotels_quiet cf _ (fun _ => true) (Some (JS.ofZ 150)));
      reflexivity.
  - rewrite (getHotels_quiet cf _ (fun _ => true) (Some (JS.ofZ 150)));
      reflexivity.
  - rewrite (getHotels_quiet cf _ (fun _ => true) (Some (JS.ofZ 999)));
      reflexivity.
  - intro H. apply filter_In in H. destruct H as [Hin H]. split; trivial.
    apply (inRange_iff lo (inject_Z hi) h). exact H.
  - intros [Hin Hr]. apply filter_In. split; trivial.
    apply (inRange_iff lo (inject_Z hi) h). exact Hr.
Qed.

(** ** Lookups by an id that matches nothing *)

Lemma deleteFirst_none {A} (p : A -> bool) (l : list A) :
  List.find p l = None -> deleteFirst p l = l.
Proof.
  induction l as [| x l IH]; simpl; trivial.
  destruct (p x); [discriminate | intro H; rewrite IH; trivial].
Qed.

(** Against C4 as stated.  With one Hotel (id 1) and one Room (id 7) stored,
    id 9 matches nothing; the four handlers answer 200 and none passes an
    error on. *)
Lemma absent_id_counterexample :
  let w := quiet [sampleHotel 1 "hotel" "Paris" 100 [7%nat]] [sampleRoom 7] in
  List.find (Hotel.hasId 9) (hotels w) = None
  /\ List.find (Room.hasId 9) (rooms w) = None
  /\ trace (run (getHotel 9) w) = [Respond 200 JNull]
  /\ trace (run (updateHotel 9 (renamePatch "Ritz")) w) = [Respond 200 JNull]
  /\ trace (run (deleteHotel 9) w)
     = [Respond 200 (JString "Hotel has been deleted")]
  /\ trace (run (getRoom 9) w) = [Respond 200 JNull]
  /\ reportsError (run (getHotel 9) w) = false
  /\ reportsError (run (updateHotel 9 (renamePatch "Ritz")) w) = false
  /\ reportsError (run (deleteHotel 9) w) = false
  /\ reportsError (run (getRoom 9) w) = false.
Proof. vm_compute. repeat split. Qed.

(** C4, amended: for an id (one the driver casts to an ObjectId) that matches
    no stored document, [getHotel], [updateHotel] and [getRoom] answer 200
    with a null body and [deleteHotel] answers 200 with its confirmation; no
    error is passed on and the store is left as it was. *)
Theorem absent_id_answers_200 :
  forall (id : ObjectId) (body : HotelDoc.patch) hs rs,
    List.find (Hotel.hasId id) hs = None ->
    List.find (Room.hasId id) rs = None ->
    run (getHotel id) (quiet hs rs) = mkWorld hs rs [] [Respond 200 JNull]
    /\ run (updateHotel id body) (quiet hs rs)
       = mkWorld hs rs [] [Respond 200 JNull]
    /\ run (deleteHotel id) (quiet hs rs)
       = mkWorld hs rs [] [Respond 200 (JString "Hotel has been deleted")]
    /\ run (getRoom id) (quiet hs rs) = mkWorld hs rs [] [Respond 200 JNull].
Proof.
  intros id body hs rs Hh Hr.
  unfold run, getHotel, updateHotel, deleteHotel, getRoom, tryCatch, bind,
    Hotel.findById, Hotel.findByIdAndUpdate, Hotel.findByIdAndDelete,
    Room.findById, storeCall, quiet; simpl.
  rewrite Hh, Hr, (deleteFirst_none _ _ Hh). simpl. repeat split.
Qed.

Lemma absent_id_answers_200_witness :
  let hs := [sampleHotel 1 "hotel" "Paris" 100 [7%nat]] in
  let rs := [sampleRoom 7] in
  List.find (Hotel.hasId 9) hs = None
  /\ List.find (Room.hasId 9) rs = None
  /\ run (getHotel 9) (quiet hs rs) = mkWorld hs rs [] [Respond 200 JNull]
  /\ run (updateHotel 9 (renamePatch "Ritz")) (quiet hs rs)
     = mkWorld hs rs [] [Respond 200 JNull]
  /\ run (deleteHotel 9) (quiet hs rs)
     = mkWorld hs rs [] [Respond 200 (JString "Hotel has been deleted")]
  /\ run (getRoom 9) (quiet hs rs) = mkWorld hs rs [] [Respond 200 JNull].
Proof.
  intros hs rs.
  split; [reflexivity | split; [reflexivity |]].
  apply (absent_id_answers_200 9 (renamePatch "Ritz") hs rs); reflexivity.
Defined.

(** ** Creating and deleting a Room *)

Lemma find_none_existsb {A} (p : A -> bool) (l : list A) :
  List.find p l = None -> existsb p l = false.
Proof.
  induction l as [| x l IH]; simpl; trivial.
  destruct (p x); [discriminate | exact IH].
Qed.

Lemma find_updateFirst {A} (p : A -> bool) (f : A -> A) (l : list A) :
  (forall x, p (f x) = p x) ->
  List.find p (updateFirst p f l) = option_map f (List.find p l).
Proof.
  intro Hp. induction l as [| x l IH]; simpl; trivial.
  destruct (p x) eqn:E; simpl.
  - rewrite Hp, E. reflexivity.
  - rewrite E. exact IH.
Qed.

Lemma updateFirst_none {A} (p : A -> bool) (f : A -> A) (l : list A) :
  List.find p l = None -> updateFirst p f l = l.
Proof.
  induction l as [| x l IH]; simpl; trivial.
  destruct (p x); [discriminate | intro H; rewrite IH; trivial].
Qed.

(** Once the one document with an id is deleted, no document has it: the
    [_id] index of the collection is unique. *)
Lemma find_deleteFirst_unique (id : ObjectId) (rs : list RoomDoc.t) :
  NoDup (map RoomDoc._id rs) ->
  List.find (Room.hasId id) (deleteFirst (Room.hasId id) rs) = None.
Proof.
  induction rs as [| r rs IH]; simpl; trivial.
  intro ND. inversion ND as [| ? ? Hnotin ND']; subst.
  unfold Room.hasId at 2. unfold Room.hasId at 1 in IH.
  destruct (Nat.eqb (RoomDoc._id r) id) eqn:E; simpl.
  - apply Nat.eqb_eq in E. subst id.
    destruct (List.find _ rs) eqn:F; trivial.
    apply find_some in F. destruct F as [Hin Heq].
    unfold Room.hasId in Heq. apply Nat.eqb_eq in Heq.
    exfalso. apply Hnotin. rewrite <- Heq. apply in_map. exact Hin.
  - unfold Room.hasId at 1. rewrite E. apply IH. exact ND'.
Qed.

(** [save] keeps the ids of the collection distinct, whatever the faults. *)
Lemma Room_save_keeps_ids_unique (doc : RoomDoc.t) (w : World) :
  NoDup (map RoomDoc._id (rooms w)) ->
  NoDup (map RoomDoc._id (rooms (snd (Room.save doc w)))).
Proof.
  intro ND. destruct w as [hs rs fs tr]. unfold Room.save, storeCall; simpl.
  assert (Hadd : existsb (Room.hasId (RoomDoc._id doc)) rs = false ->
                 NoDup (map RoomDoc._id (rs ++ [doc]))).
  { intro Hfresh. rewrite map_app. simpl in ND |- *.
    apply NoDup_app; [exact ND | repeat constructor; simpl; tauto |].
    intros id Hin [<- | []]. apply in_map_iff in Hin.
    destruct Hin as [r [Hid Hr]].
    assert (existsb (Room.hasId (RoomDoc._id doc)) rs = true).
    { apply existsb_exists. exists r. split; trivial.
      unfold Room.hasId. apply Nat.eqb_eq. exact Hid. }
    congruence. }
  destruct fs as [| [e |] fs]; simpl;
    destruct (existsb (Room.hasId (RoomDoc._id doc)) rs) eqn:E; simpl; auto.
Qed.

(** [createRoom] in the three ways its two store calls can go. *)
Lemma createRoom_runs (hotelId : ObjectId) (room : RoomDoc.t) hs rs fs tr :
  existsb (Room.hasId (RoomDoc._id room)) rs = false ->
  (forall e,
      run (createRoom hotelId room) (mkWorld hs rs (Some e :: fs) tr)
      = mkWorld hs rs fs (tr ++ [Next e]))
  /\ (forall e,
      run (createRoom hotelId room) (mkWorld hs rs (None :: Some e :: fs) tr)
      = mkWorld hs (rs ++ [room]) fs
          ((tr ++ [Next e]) ++ [Respond 200 (JRoom room)]))
  /\ run (createRoom hotelId room) (mkWorld hs rs [] tr)
     = mkWorld (updateFirst (Hotel.hasId hotelId)
                  (Hotel.applyUpdate (Hotel.Push_rooms (RoomDoc._id room))) hs)
               (rs ++ [room]) [] (tr ++ [Respond 200 (JRoom room)]).
Proof.
  intro Hfresh.
  unfold run, createRoom, tryCatch, bind, Room.save,
    Hotel.findByIdAndUpdate, storeCall; simpl.
  rewrite Hfresh; simpl. repeat split.
  destruct (List.find (Hotel.hasId hotelId) hs) eqn:F; simpl; trivial.
  rewrite (updateFirst_none _ _ _ F). reflexivity.
Qed.

(** C2: [createRoom] saves the Room with its first store call and pushes the
    Room's id on the Hotel's [rooms] with its second.  When the save is
    rejected nothing is written and the error is passed on; when the push is
    rejected after the save, the error is passed on, the Room stays stored
    (no rollback) and the Room is still answered with status 200; when both
    go through, the Hotel's [rooms] is what it was with the new id appended,
    and the Hotel's other fields are what they were. *)
Theorem createRoom_persists_then_links :
  forall (hotelId : ObjectId) (room : RoomDoc.t) hs rs e fs,
    existsb (Room.hasId (RoomDoc._id room)) rs = false ->
    run (createRoom hotelId room) (mkWorld hs rs (Some e :: fs) [])
    = mkWorld hs rs fs [Next e]
    /\ run (createRoom hotelId room) (mkWorld hs rs (None :: Some e :: fs) [])
       = mkWorld hs (rs ++ [room]) fs [Next e; Respond 200 (JRoom room)]
    /\ rooms (run (createRoom hotelId room) (quiet hs rs)) = rs ++ [room]
    /\ trace (run (createRoom hotelId room) (quiet hs rs))
       = [Respond 200 (JRoom room)]
    /\ (forall h,
          List.find (Hotel.hasId hotelId) hs = Some h ->
          exists h',
            List.find (Hotel.hasId hotelId)
                      (hotels (run (createRoom hotelId room) (quiet hs rs)))
            = Some h'
            /\ HotelDoc.rooms h' = HotelDoc.rooms h ++ [RoomDoc._id room]
            /\ HotelDoc._id h' = HotelDoc._id h
            /\ HotelDoc.name h' = HotelDoc.name h
            /\ HotelDoc.type h' = HotelDoc.type h
            /\ HotelDoc.city h' = HotelDoc.city h
            /\ HotelDoc.address h' = HotelDoc.address h
            /\ HotelDoc.distance h' = HotelDoc.distance h
            /\ HotelDoc.photos h' = HotelDoc.photos h
            /\ HotelDoc.title h' = HotelDoc.title h
            /\ HotelDoc.desc h' = HotelDoc.desc h
            /\ HotelDoc.rating h' = HotelDoc.rating h
            /\ HotelDoc.cheapestPrice h' = HotelDoc.cheapestPrice h
            /\ HotelDoc.featured h' = HotelDoc.featured h).
Proof.
  intros hotelId room hs rs e fs Hfresh.
  destruct (createRoom_runs hotelId room hs rs fs [] Hfresh) as [Ha [Hb _]].
  destruct (createRoom_runs hotelId room hs rs [] [] Hfresh) as [_ [_ Hc]].
  split; [apply Ha | split; [apply Hb |]].
  unfold quiet. rewrite Hc; simpl.
  split; [reflexivity | split; [reflexivity |]].
  intros h Hh. rewrite find_updateFirst by reflexivity.
  rewrite Hh. simpl. eexists. split; [reflexivity |].
  simpl. repeat split; reflexivity.
Qed.

Lemma createRoom_persists_then_links_witness :
  let hs := [sampleHotel 1 "hotel" "Paris" 100 []] in
  let room := sampleRoom 7 in
  let e := DriverError "connection lost" in
  existsb (Room.hasId (RoomDoc._id room)) [] = false
  /\ run (createRoom 1 room) (mkWorld hs [] [Some e] []) = mkWorld hs [] [] [Next e]
  /\ run (createRoom 1 room) (mkWorld hs [] [None; Some e] [])
     = mkWorld hs [room] [] [Next e; Respond 200 (JRoom room)]
  /\ rooms (run (createRoom 1 room) (quiet hs [])) = [room]
  /\ trace (run (createRoom 1 room) (quiet hs []))
     = [Respond 200 (JRoom room)]
  /\ exists h',
       List.find (Hotel.hasId 1)
                 (hotels (run (createRoom 1 room) (quiet hs [])))
       = Some h'
       /\ HotelDoc.rooms h' = [7%nat]
       /\ HotelDoc._id h' = 1%nat
       /\ HotelDoc.cheapestPrice h' = 100%Q.
Proof.
  intros hs room e. split; [reflexivity |].
  destruct (createRoom_persists_then_links 1 room hs [] e [] eq_refl)
    as (Ha & Hb & Hc & Hd & He).
  split; [exact Ha | split; [exact Hb | split; [exact Hc | split; [exact Hd |]]]].
  destruct (He (sampleHotel 1 "hotel" "Paris" 100 []) eq_refl)
    as (h' & Hf & Hr & Hi & _ & _ & _ & _ & _ & _ & _ & _ & _ & Hp & _).
  exists h'. split; [exact Hf | split; [exact Hr | split; [exact Hi | exact Hp]]].
Defined.

(** Against C10 as stated.  The [hotelid] of the request does not cast to an
    ObjectId, so it matches no stored Hotel, and the driver rejects the
    [$push] with its cast error: that is the second store call of the world
    below.  The Room is stored and answered, no Hotel is modified, and the
    error is passed to [next] all the same. *)
Lemma createRoom_unknown_hotel_counterexample :
  let hs := [sampleHotel 1 "hotel" "Paris" 100 []] in
  let room := sampleRoom 7 in
  let w := mkWorld hs [] [None; Some (CastError "_id")] [] in
  List.find (Hotel.hasId 2) hs = None
  /\ trace (run (createRoom 2 room) w)
     = [Next (CastError "_id"); Respond 200 (JRoom room)]
  /\ reportsError (run (createRoom 2 room) w) = true
  /\ rooms (run (createRoom 2 room) w) = [room]
  /\ hotels (run (createRoom 2 room) w) = hs.
Proof. vm_compute. repeat split. Qed.

(** C10, amended: when [hotelId] is an id the driver casts to an ObjectId
    that matches no stored Hotel, and the store rejects neither call,
    [createRoom] still stores the Room and answers it with status 200; it
    passes no error on, and the Hotels are left as they were. *)
Theorem createRoom_unknown_hotel_is_silent :
  forall (hotelId : ObjectId) (room : RoomDoc.t) hs rs,
    List.find (Hotel.hasId hotelId) hs = None ->
    existsb (Room.hasId (RoomDoc._id room)) rs = false ->
    run (createRoom hotelId room) (quiet hs rs)
    = mkWorld hs (rs ++ [room]) [] [Respond 200 (JRoom room)]
    /\ reportsError (run (createRoom hotelId room) (quiet hs rs)) = false.
Proof.
  intros hotelId room hs rs Hh Hfresh.
  destruct (createRoom_runs hotelId room hs rs [] [] Hfresh) as [_ [_ Hc]].
  unfold quiet. rewrite Hc, (updateFirst_none _ _ _ Hh). split; reflexivity.
Qed.

Lemma createRoom_unknown_hotel_is_silent_witness :
  let hs := [sampleHotel 1 "hotel" "Paris" 100 []] in
  let room := sampleRoom 7 in
  List.find (Hotel.hasId 2) hs = None
  /\ existsb (Room.hasId (RoomDoc._id room)) [] = false
  /\ run (createRoom 2 room) (quiet hs [])
     = mkWorld hs [room] [] [Respond 200 (JRoom room)]
  /\ reportsError (run (createRoom 2 room) (quiet hs [])) = false.
Proof.
  intros hs room. split; [reflexivity | split; [reflexivity |]].
  apply (createRoom_unknown_hotel_is_silent 2 room hs []); reflexivity.
Defined.

(** Against C5 as stated.  After a Room is deleted its id resolves to
    nothing, and [getRoom] answers 200 with a null body where the claim has
    it fail. *)
Lemma deleteRoom_getRoom_counterexample :
  let w := quiet [sampleHotel 1 "hotel" "Paris" 100 [7%nat]] [sampleRoom 7] in
  let w1 := run (deleteRoom 1 7) w in
  trace w1 = [Respond 200 (JString "Room has been deleted")]
  /\ trace (run (getRoom 7) (afterwards w1)) = [Respond 200 JNull]
  /\ reportsError (run (getRoom 7) (afterwards w1)) = false.
Proof. vm_compute. repeat split. Qed.

Lemma not_in_pulled (r : ObjectId) (l : list ObjectId) :
  ~ In r (List.filter (fun x => negb (Nat.eqb x r)) l).
Proof.
  intro H. apply filter_In in H. destruct H as [_ H].
  rewrite Nat.eqb_refl in H. discriminate.
Qed.

(** C5, amended: for a Hotel H whose [rooms] holds r, after
    [deleteRoom(H.id, r)] has gone through, no Room with id r is stored, so
    a following [getRoom(r)] answers 200 with a null body, and H's [rooms]
    no longer holds r. *)
Theorem deleteRoom_unlinks_and_removes :
  forall hs rs (H : HotelDoc.t) (r : ObjectId),
    NoDup (map RoomDoc._id rs) ->
    List.find (Hotel.hasId (HotelDoc._id H)) hs = Some H ->
    In r (HotelDoc.rooms H) ->
    let w1 := run (deleteRoom (HotelDoc._id H) r) (quiet hs rs) in
    trace w1 = [Respond 200 (JString "Room has been deleted")]
    /\ List.find (Room.hasId r) (rooms w1) = None
    /\ run (getRoom r) (afterwards w1)
       = mkWorld (hotels w1) (rooms w1) [] [Respond 200 JNull]
    /\ exists H',
         List.find (Hotel.hasId (HotelDoc._id H)) (hotels w1) = Some H'
         /\ HotelDoc._id H' = HotelDoc._id H
         /\ ~ In r (HotelDoc.rooms H').
Proof.
  intros hs rs H r ND HH Hin w1.
  assert (E : w1 = mkWorld
                     (updateFirst (Hotel.hasId (HotelDoc._id H))
                        (Hotel.applyUpdate (Hotel.Pull_rooms r)) hs)
                     (deleteFirst (Room.hasId r) rs) []
                     [Respond 200 (JString "Room has been deleted")]).
  { unfold w1, run, deleteRoom, tryCatch, bind, Room.findByIdAndDelete,
      Hotel.findByIdAndUpdate, storeCall, quiet; simpl.
    rewrite HH. reflexivity. }
  rewrite E; simpl.
  pose proof (find_deleteFirst_unique r rs ND) as Hgone.
  split; [reflexivity | split; [exact Hgone | split]].
  - unfold run, afterwards, getRoom, tryCatch, bind, Room.findById, storeCall;
      simpl. rewrite Hgone. reflexivity.
  - eexists. rewrite find_updateFirst by reflexivity. rewrite HH; simpl.
    split; [reflexivity | split; [reflexivity | apply not_in_pulled]].
Qed.

Lemma deleteRoom_unlinks_and_removes_witness :
  let H := sampleHotel 1 "hotel" "Paris" 100 [7%nat; 8%nat] in
  let hs := [H] in
  let rs := [sampleRoom 7; sampleRoom 8] in
  let w1 := run (deleteRoom 1 7) (quiet hs rs) in
  NoDup (map RoomDoc._id rs)
  /\ List.find (Hotel.hasId (HotelDoc._id H)) hs = Some H
  /\ In 7%nat (HotelDoc.rooms H)
  /\ trace w1 = [Respond 200 (JString "Room has been deleted")]
  /\ List.find (Room.hasId 7) (rooms w1) = None
  /\ run (getRoom 7) (afterwards w1)
     = mkWorld (hotels w1) (rooms w1) [] [Respond 200 JNull]
  /\ exists H',
       List.find (Hotel.hasId (HotelDoc._id H)) (hotels w1) = Some H'
       /\ HotelDoc._id H' = HotelDoc._id H
       /\ ~ In 7%nat (HotelDoc.rooms H').
Proof.
  intros H hs rs w1.
  assert (ND : NoDup (map RoomDoc._id rs)).
  { simpl. repeat constructor; simpl; intuition discriminate. }
  assert (Hin : In 7%nat (HotelDoc.rooms H)) by (simpl; auto).
  split; [exact ND | split; [reflexivity | split; [exact Hin |]]].
  exact (deleteRoom_unlinks_and_removes hs rs H 7 ND eq_refl Hin).
Defined.

(** ** The rooms of a Hotel *)

Lemma getHotelRooms_quiet (id : ObjectId) (h : HotelDoc.t) hs rs :
  List.find (Hotel.hasId id) hs = Some h ->
  run (getHotelRooms id) (quiet hs rs)
  = mkWorld hs rs []
      [Respond 200
         (JArray (map (fun r => nullable JRoom (List.find (Room.hasId r) rs))
                      (HotelDoc.rooms h)))].
Proof.
  intro Hh.
  unfold run, getHotelRooms, tryCatch, bind, Hotel.findById, storeCall, quiet;
    simpl.
  rewrite Hh.
  rewrite (mapM_reads _ (fun r => List.find (Room.hasId r) rs))
    by (intro a; reflexivity).
  simpl. rewrite map_map. reflexivity.
Qed.

Lemma mapM_cons {A B} (f : A -> M B) (a : A) (r : list A) (w : World) :
  mapM f (a :: r) w
  = let '(first, w1) := f a w in
    let '(rest, w2) := mapM f r w1 in
    (match first, rest with
     | Ok b, Ok bs => Ok (b :: bs)
     | Thrown e, _ => Thrown e
     | Ok _, Thrown e => Thrown e
     end, w2).
Proof. reflexivity. Qed.

(** Reads mapped over a list touch neither the collections nor the
    response, whatever the faults. *)
Lemma mapM_reads_world {A B} (g : A -> World -> B) (l : list A) :
  forall fs hs rs tr,
    exists o fs',
      mapM (fun a => storeCall (fun w => (g a w, w))) l (mkWorld hs rs fs tr)
      = (o, mkWorld hs rs fs' tr).
Proof.
  set (f := fun a : A => storeCall (fun w => (g a w, w))).
  induction l as [| a l IH]; intros fs hs rs tr.
  - eexists. eexists. reflexivity.
  - rewrite mapM_cons. unfold f at 1.
    destruct fs as [| [e |] fs]; cbv [storeCall faults hotels rooms trace].
    + destruct (IH [] hs rs tr) as [o [fs' ->]]. eexists. eexists. reflexivity.
    + destruct (IH fs hs rs tr) as [o [fs' ->]]. eexists. eexists. reflexivity.
    + destruct (IH fs hs rs tr) as [o [fs' ->]]. eexists. eexists. reflexivity.
Qed.

(** Reads mapped over a list when the store rejects the one at position [k]
    and none before it. *)
Lemma mapM_reads_rejected {A B} (g : A -> World -> B) (l : list A) :
  forall (k : nat) e fs hs rs tr,
    (k < List.length l)%nat ->
    exists fs',
      mapM (fun a => storeCall (fun w => (g a w, w))) l
           (mkWorld hs rs (repeat None k ++ Some e :: fs) tr)
      = (Thrown e, mkWorld hs rs fs' tr).
Proof.
  pose proof (mapM_reads_world g) as Hw.
  set (f := fun a : A => storeCall (fun w => (g a w, w))) in *.
  induction l as [| a l IH]; intros k e fs hs rs tr Hk; simpl in Hk.
  - lia.
  - rewrite mapM_cons. unfold f at 1.
    destruct k as [| k]; cbn [repeat app];
      cbv [storeCall faults hotels rooms trace].
    + destruct (Hw l fs hs rs tr) as [o [fs' ->]].
      exists fs'. reflexivity.
    + destruct (IH k e fs hs rs tr) as [fs' ->]; [lia |].
      exists fs'. reflexivity.
Qed.





Lemma resolved_rooms (rs : list RoomDoc.t) (l : list ObjectId) :
  (forall r, In r l -> exists room, List.find (Room.hasId r) rs = Some room) ->
  exists list,
    map (fun r => nullable JRoom (List.find (Room.hasId r) rs)) l
    = map JRoom list
    /\ Forall2 (fun r room => List.find (Room.hasId r) rs = Some room) l list.
Proof.
  induction l as [| r l IH]; intro Hres.
  - exists []. split; constructor.
  - destruct (Hres r (or_introl eq_refl)) as [room Hroom].
    destruct IH as [list [Hm Hf]].
    { intros r' Hin. apply Hres. right. exact Hin. }
    exists (room :: list). split.
    + simpl. rewrite Hroom, Hm. reflexivity.
    + constructor; assumption.
Qed.

Lemma Forall2_nth_error {A B} (R : A -> B -> Prop) (l : list A) (l' : list B) :
  Forall2 R l l' ->
  forall i a, nth_error l i = Some a ->
              exists b, nth_error l' i = Some b /\ R a b.
Proof.
  induction 1 as [| x y l l' Hxy _ IH]; intros i a Hi.
  - destruct i; discriminate.
  - destruct i as [| i]; simpl in *.
    + injection Hi as <-. exists y. split; trivial.
    + apply IH. exact Hi.
Qed.

(** C3: for a Hotel H with [rooms] = [r1,...,rn], each resolving to a stored
    Room, [getHotelRooms(H.id)] answers 200 with a sequence of n Rooms whose
    i-th element is the stored Room with id ri. *)
Theorem getHotelRooms_keeps_order :
  forall (H : HotelDoc.t) hs rs,
    List.find (Hotel.hasId (HotelDoc._id H)) hs = Some H ->
    (forall r, In r (HotelDoc.rooms H) ->
               exists room, List.find (Room.hasId r) rs = Some room) ->
    exists list,
      run (getHotelRooms (HotelDoc._id H)) (quiet hs rs)
      = mkWorld hs rs [] [Respond 200 (JArray (map JRoom list))]
      /\ List.length list = List.length (HotelDoc.rooms H)
      /\ map RoomDoc._id list = HotelDoc.rooms H
      /\ (forall i r,
            nth_error (HotelDoc.rooms H) i = Some r ->
            exists room,
              nth_error list i = Some room
              /\ RoomDoc._id room = r
              /\ In room rs).
Proof.
  intros H hs rs HH Hres.
  destruct (resolved_rooms rs (HotelDoc.rooms H) Hres) as [list [Hm Hf]].
  assert (Hid : forall r room,
             List.find (Room.hasId r) rs = Some room ->
             RoomDoc._id room = r /\ In room rs).
  { intros r room F. apply find_some in F. destruct F as [Hin Heq].
    apply Nat.eqb_eq in Heq. split; assumption. }
  exists list. split; [| split; [| split]].
  - rewrite (getHotelRooms_quiet _ H) by exact HH. rewrite Hm. reflexivity.
  - symmetry. exact (Forall2_length Hf).
  - clear Hm. induction Hf as [| r room l l' Hr _ IH]; simpl; trivial.
    rewrite IH by (intros r' Hin; apply Hres; right; exact Hin).
    destruct (Hid _ _ Hr) as [-> _]. reflexivity.
  - intros i r Hi.
    destruct (Forall2_nth_error _ _ _ Hf i r Hi) as [room [Hn Hr]].
    exists room. destruct (Hid _ _ Hr). auto.
Qed.

Lemma getHotelRooms_keeps_order_witness :
  let H := sampleHotel 1 "hotel" "Paris" 100 [8%nat; 7%nat] in
  let hs := [H] in
  let rs := [sampleRoom 7; sampleRoom 8] in
  List.find (Hotel.hasId (HotelDoc._id H)) hs = Some H
  /\ (forall r, In r (HotelDoc.rooms H) ->
                exists room, List.find (Room.hasId r) rs = Some room)
  /\ exists list,
       run (getHotelRooms (HotelDoc._id H)) (quiet hs rs)
       = mkWorld hs rs [] [Respond 200 (JArray (map JRoom list))]
       /\ List.length list = List.length (HotelDoc.rooms H)
       /\ map RoomDoc._id list = HotelDoc.rooms H
       /\ (forall i r,
             nth_error (HotelDoc.rooms H) i = Some r ->
             exists room,
               nth_error list i = Some room
               /\ RoomDoc._id room = r
               /\ In room rs).
Proof.
  intros H hs rs.
  assert (Hres : forall r, In r (HotelDoc.rooms H) ->
                           exists room, List.find (Room.hasId r) rs = Some room).
  { intros r [<- | [<- | []]]; eexists; reflexivity. }
  split; [reflexivity | split; [exact Hres |]].
  exact (getHotelRooms_keeps_order H hs rs eq_refl Hres).
Defined.

(** ** Counting *)

Lemma split_not_nil (sep : ascii) (s : string) : JS.split sep s <> [].
Proof.
  destruct s as [| c r]; simpl; [discriminate |].
  destruct (Ascii.eqb c sep); [discriminate |].
  destruct (JS.split sep r); discriminate.
Qed.

Lemma split_app_commaFree (x s : string) :
  commaFree x = true ->
  JS.split "," (x ++ s)
  = match JS.split "," s with
    | h :: t => (x ++ h)%string :: t
    | [] => [x]
    end.
Proof.
  induction x as [| c x IH]; simpl; intro Hx.
  - pose proof (split_not_nil "," s) as Hn.
    destruct (JS.split "," s); [contradiction | reflexivity].
  - apply andb_true_iff in Hx. destruct Hx as [Hc Hx].
    apply negb_true_iff in Hc. rewrite Hc, (IH Hx).
    pose proof (split_not_nil "," s) as Hn.
    destruct (JS.split "," s); [contradiction | reflexivity].
Qed.

Lemma append_empty (x : string) : (x ++ "")%string = x.
Proof. induction x as [| c x IH]; simpl; [| rewrite IH]; reflexivity. Qed.

(** Splitting what the caller joined with commas gives the names back. *)
Lemma split_concat (names : list string) :
  names <> [] ->
  Forall (fun n => commaFree n = true) names ->
  JS.split "," (String.concat "," names) = names.
Proof.
  induction names as [| x names IH]; intros Hne Hfree; [contradiction |].
  inversion Hfree as [| ? ? Hx Hrest]; subst.
  destruct names as [| y names].
  - simpl. rewrite <- (append_empty x) at 1.
    rewrite (split_app_commaFree x "" Hx). simpl.
    rewrite append_empty. reflexivity.
  - change (String.concat "," (x :: y :: names))
      with (x ++ "," ++ String.concat "," (y :: names))%string.
    rewrite (split_app_commaFree _ _ Hx).
    change (JS.split "," ("," ++ String.concat "," (y :: names)))
      with ("" :: JS.split "," (String.concat "," (y :: names))).
    rewrite IH by (trivial; discriminate).
    rewrite append_empty. reflexivity.
Qed.

Lemma countByCity_quiet (s : string) hs rs :
  run (countByCity (Some s)) (quiet hs rs)
  = mkWorld hs rs []
      [Respond 200
         (JArray (map JNumber
            (map (fun city => Hotel.count (Hotel.ByCity city) hs)
                 (JS.split "," s))))].
Proof.
  unfold run, countByCity, tryCatch, bind, quiet.
  rewrite (mapM_reads _ (fun city => Hotel.count (Hotel.ByCity city) hs))
    by (intro a; reflexivity).
  reflexivity.
Qed.

(** C7: for a sequence of city names (joined with commas by the caller),
    [countByCity] answers one count per name, in the order of the names; the
    i-th count is the number of Hotels whose [city] equals the i-th name, so
    a name given twice has its count at both positions. *)
Theorem countByCity_counts_in_order :
  forall (names : list string) hs rs,
    names <> [] ->
    Forall (fun n => commaFree n = true) names ->
    exists counts,
      run (countByCity (Some (String.concat "," names))) (quiet hs rs)
      = mkWorld hs rs [] [Respond 200 (JArray (map JNumber counts))]
      /\ counts = map (inCity hs) names
      /\ List.length counts = List.length names
      /\ (forall i n, nth_error names i = Some n ->
                      nth_error counts i = Some (inCity hs n))
      /\ (forall i j n, nth_error names i = Some n ->
                        nth_error names j = Some n ->
                        nth_error counts i = nth_error counts j).
Proof.
  intros names hs rs Hne Hfree. exists (map (inCity hs) names).
  assert (Hnth : forall i n, nth_error names i = Some n ->
                 nth_error (map (inCity hs) names) i = Some (inCity hs n)).
  { intros i n Hi. rewrite nth_error_map, Hi. reflexivity. }
  split; [| split; [reflexivity | split; [apply length_map | split]]].
  - rewrite countByCity_quiet, (split_concat names Hne Hfree). reflexivity.
  - exact Hnth.
  - intros i j n Hi Hj. rewrite (Hnth i n Hi), (Hnth j n Hj). reflexivity.
Qed.

Lemma countByCity_counts_in_order_witness :
  let names := ["Paris"; "Paris"; "Tokyo"] in
  let hs := [sampleHotel 1 "hotel" "Paris" 100 [];
             sampleHotel 2 "villa" "Tokyo" 200 [];
             sampleHotel 3 "hotel" "Paris" 120 []] in
  names <> []
  /\ Forall (fun n => commaFree n = true) names
  /\ exists counts,
       run (countByCity (Some (String.concat "," names))) (quiet hs [])
       = mkWorld hs [] [] [Respond 200 (JArray (map JNumber counts))]
       /\ counts = map (inCity hs) names
       /\ List.length counts = List.length names
       /\ (forall i n, nth_error names i = Some n ->
                       nth_error counts i = Some (inCity hs n))
       /\ (forall i j n, nth_error names i = Some n ->
                         nth_error names j = Some n ->
                         nth_error counts i = nth_error counts j).
Proof.
  intros names hs.
  assert (Hne : names <> []) by discriminate.
  assert (Hfree : Forall (fun n => commaFree n = true) names)
    by (repeat constructor).
  split; [exact Hne | split; [exact Hfree |]].
  exact (countByCity_counts_in_order names hs [] Hne Hfree).
Defined.

Lemma count_none (f : Hotel.filter) (hs : list HotelDoc.t) :
  (forall h, In h hs -> Hotel.matches f h = false) -> Hotel.count f hs = 0%nat.
Proof.
  unfold Hotel.count. induction hs as [| h hs IH]; intro Hno; simpl; trivial.
  rewrite (Hno h (or_introl eq_refl)). apply IH.
  intros h' Hin. apply Hno. right. exact Hin.
Qed.

(** C8: on an empty store [countByType] answers exactly five entries, each an
    object with a [type] and a [count]: the types are hotel, apartments,
    resorts, villas and cabins and every count is 0.  On any store the
    answer has those five entries and no other, each counting the Hotels
    stored with the matching type, which is 0 for a type no stored Hotel
    has. *)
Theorem countByType_five_entries :
  (forall rs,
      run countByType (quiet [] rs)
      = mkWorld [] rs []
          [Respond 200
             (JArray
                [JObject [("type", JString "hotel"); ("count", JNumber 0)];
                 JObject [("type", JString "apartments"); ("count", JNumber 0)];
                 JObject [("type", JString "resorts"); ("count", JNumber 0)];
                 JObject [("type", JString "villas"); ("count", JNumber 0)];
                 JObject [("type", JString "cabins"); ("count", JNumber 0)]])])
  /\ (forall hs rs,
        run countByType (quiet hs rs)
        = mkWorld hs rs []
            [Respond 200
               (JArray
                  [JObject [("type", JString "hotel");
                            ("count",
                             JNumber (Hotel.count (Hotel.ByType "hotel") hs))];
                   JObject [("type", JString "apartments");
                            ("count",
                             JNumber
                               (Hotel.count (Hotel.ByType "apartment") hs))];
                   JObject [("type", JString "resorts");
                            ("count",
                             JNumber (Hotel.count (Hotel.ByType "resort") hs))];
                   JObject [("type", JString "villas");
                            ("count",
                             JNumber (Hotel.count (Hotel.ByType "villa") hs))];
                   JObject [("type", JString "cabins");
                            ("count",
                             JNumber
                               (Hotel.count (Hotel.ByType "cabin") hs))]])])
  /\ (forall hs t,
        (forall h, In h hs -> HotelDoc.type h <> t) ->
        Hotel.count (Hotel.ByType t) hs = 0%nat).
Proof.
  split; [| split].
  - intro rs. reflexivity.
  - intros hs rs. reflexivity.
  - intros hs t Hno. apply count_none. intros h Hin. simpl.
    apply String.eqb_neq. apply Hno. exact Hin.
Qed.

(** * Further properties of the controllers *)

(** ** What a computation keeps, and what it calls *)

Section Keeps.

Variable P : list HotelDoc.t -> list RoomDoc.t -> Prop.

Lemma keeps_ret {A} (a : A) : keeps P (ret a).
Proof. intros w H. exact H. Qed.

Lemma keeps_throw {A} (e : Error) : keeps P (@throw A e).
Proof. intros w H. exact H. Qed.

Lemma keeps_lift {A} (o : Outcome A) : keeps P (Hotel.lift o).
Proof. intros w H. exact H. Qed.

Lemma keeps_emit (ev : Event) : keeps P (emit ev).
Proof. intros w H. exact H. Qed.

Lemma keeps_bind {A B} (m : M A) (k : A -> M B) :
  keeps P m -> (forall a, keeps P (k a)) -> keeps P (bind m k).
Proof.
  intros Hm Hk w H. unfold bind. specialize (Hm w H).
  destruct (m w) as [[a | e] w']; simpl in *; [apply Hk |]; exact Hm.
Qed.

Lemma keeps_tryCatch {A} (m : M A) (handler : Error -> M A) :
  keeps P m -> (forall e, keeps P (handler e)) -> keeps P (tryCatch m handler).
Proof.
  intros Hm Hh w H. unfold tryCatch. specialize (Hm w H).
  destruct (m w) as [[a | e] w']; simpl in *; [| apply Hh]; exact Hm.
Qed.

Lemma keeps_mapM {A B} (f : A -> M B) (l : list A) :
  (forall a, keeps P (f a)) -> keeps P (mapM f l).
Proof.
  intro Hf. induction l as [| a l IH]; simpl.
  - apply keeps_ret.
  - intros w H. specialize (Hf a w H).
    destruct (f a w) as [first w1]; simpl in Hf.
    specialize (IH w1 Hf). destruct (mapM f l w1) as [rest w2]. exact IH.
Qed.

Lemma keeps_storeCall {A} (op : World -> A * World) :
  (forall w, P (hotels w) (rooms w) ->
             P (hotels (snd (op w))) (rooms (snd (op w)))) ->
  keeps P (storeCall op).
Proof.
  intros Hop w H. unfold storeCall.
  destruct (faults w) as [| [e |] fs]; simpl.
  - specialize (Hop w H). destruct (op w); exact Hop.
  - exact H.
  - specialize (Hop (mkWorld (hotels w) (rooms w) fs (trace w)) H).
    destruct (op _); exact Hop.
Qed.

End Keeps.

Lemma silent_ret {A} (a : A) : silent (ret a).
Proof. intro w. reflexivity. Qed.

Lemma silent_throw {A} (e : Error) : silent (@throw A e).
Proof. intro w. reflexivity. Qed.

Lemma silent_lift {A} (o : Outcome A) : silent (Hotel.lift o).
Proof. intro w. reflexivity. Qed.

Lemma silent_bind {A B} (m : M A) (k : A -> M B) :
  silent m -> (forall a, silent (k a)) -> silent (bind m k).
Proof.
  intros Hm Hk w. unfold bind. specialize (Hm w).
  destruct (m w) as [[a | e] w']; simpl in *; [rewrite Hk |]; exact Hm.
Qed.

Lemma silent_mapM {A B} (f : A -> M B) (l : list A) :
  (forall a, silent (f a)) -> silent (mapM f l).
Proof.
  intro Hf. induction l as [| a l IH]; simpl.
  - apply silent_ret.
  - intro w. specialize (Hf a w).
    destruct (f a w) as [first w1]; simpl in Hf.
    specialize (IH w1). destruct (mapM f l w1) as [rest w2]; simpl in *.
    congruence.
Qed.

Lemma silent_storeCall {A} (op : World -> A * World) :
  (forall w, trace (snd (op w)) = trace w) -> silent (storeCall op).
Proof.
  intros Hop w. unfold storeCall.
  destruct (faults w) as [| [e |] fs]; simpl; trivial.
  - specialize (Hop w). destruct (op w); exact Hop.
  - specialize (Hop (mkWorld (hotels w) (rooms w) fs (trace w))).
    destruct (op _); exact Hop.
Qed.

Lemma answersOrThrows_respond status body :
  answersOrThrows (respond status body).
Proof. intro w. left. exists status, body. split; reflexivity. Qed.

Lemma answersOrThrows_throw e : answersOrThrows (throw e).
Proof. intro w. right. exists e. split; reflexivity. Qed.

Lemma answersOrThrows_bind {A} (m : M A) (k : A -> M unit) :
  silent m -> (forall a, answersOrThrows (k a)) -> answersOrThrows (bind m k).
Proof.
  intros Hm Hk w. unfold bind. specialize (Hm w).
  destruct (m w) as [[a | e] w']; simpl in *.
  - rewrite <- Hm. apply Hk.
  - right. exists e. split; trivial.
Qed.

(** [try { body } catch (err) { next(err) }] around such a body calls
    exactly one of [res] and [next]. *)
Lemma tryCatch_answersOnce (body : M unit) :
  answersOrThrows body -> answersOnce (tryCatch body (fun err => next err)).
Proof.
  intros Hb w. unfold run, tryCatch. specialize (Hb w).
  destruct Hb as [[status [b [Ho Ht]]] | [e [Ho Ht]]];
    destruct (body w) as [o w']; simpl in *; subst o.
  - eexists. exact Ht.
  - exists (Next e). unfold next, emit; simpl. rewrite Ht. reflexivity.
Qed.

(** ** The store calls: silent, and what each writes *)

Section StoreCalls.

Variable P : list HotelDoc.t -> list RoomDoc.t -> Prop.

Lemma keeps_Hotel_findById id : keeps P (Hotel.findById id).
Proof. apply keeps_storeCall. intros w H. exact H. Qed.

Lemma keeps_Hotel_countDocuments f : keeps P (Hotel.countDocuments f).
Proof. apply keeps_storeCall. intros w H. exact H. Qed.

Lemma keeps_Hotel_find cf others gt lt limit :
  keeps P (Hotel.find cf others gt lt limit).
Proof.
  unfold Hotel.find.
  repeat (first [apply keeps_lift | apply keeps_bind
                | match goal with |- forall _, _ => intro end]).
  apply keeps_storeCall. intros w H. exact H.
Qed.

Lemma keeps_Room_findById id : keeps P (Room.findById id).
Proof. apply keeps_storeCall. intros w H. exact H. Qed.

Lemma keeps_Room_find : keeps P Room.find.
Proof. apply keeps_storeCall. intros w H. exact H. Qed.

Lemma keeps_Hotel_save doc :
  (forall hs rs, P hs rs ->
                 existsb (Hotel.hasId (HotelDoc._id doc)) hs = false ->
                 P (hs ++ [doc]) rs) ->
  keeps P (Hotel.save doc).
Proof.
  intros Hadd [hs rs fs tr] H. unfold Hotel.save, storeCall; simpl in *.
  destruct fs as [| [e |] fs]; simpl; trivial;
    destruct (existsb (Hotel.hasId (HotelDoc._id doc)) hs) eqn:E; simpl;
    auto.
Qed.

Lemma keeps_Hotel_findByIdAndUpdate id u new :
  (forall hs rs, P hs rs ->
                 P (updateFirst (Hotel.hasId id) (Hotel.applyUpdate u) hs) rs) ->
  keeps P (Hotel.findByIdAndUpdate id u new).
Proof.
  intro Hupd. apply keeps_storeCall. intros w H.
  destruct (List.find (Hotel.hasId id) (hotels w)); simpl; auto.
Qed.

Lemma keeps_Hotel_findByIdAndDelete id :
  (forall hs rs, P hs rs -> P (deleteFirst (Hotel.hasId id) hs) rs) ->
  keeps P (Hotel.findByIdAndDelete id).
Proof. intro Hdel. apply keeps_storeCall. intros w H. simpl. auto. Qed.

Lemma keeps_Room_save doc :
  (forall hs rs, P hs rs ->
                 existsb (Room.hasId (RoomDoc._id doc)) rs = false ->
                 P hs (rs ++ [doc])) ->
  keeps P (Room.save doc).
Proof.
  intros Hadd [hs rs fs tr] H. unfold Room.save, storeCall; simpl in *.
  destruct fs as [| [e |] fs]; simpl; trivial;
    destruct (existsb (Room.hasId (RoomDoc._id doc)) rs) eqn:E; simpl;
    auto.
Qed.

Lemma keeps_Room_findByIdAndUpdate id body :
  (forall hs rs, P hs rs ->
                 P hs (updateFirst (Room.hasId id) (RoomDoc.set body) rs)) ->
  keeps P (Room.findByIdAndUpdate id body).
Proof.
  intro Hupd. apply keeps_storeCall. intros w H.
  destruct (List.find (Room.hasId id) (rooms w)); simpl; auto.
Qed.

Lemma keeps_Room_findByIdAndDelete id :
  (forall hs rs, P hs rs -> P hs (deleteFirst (Room.hasId id) rs)) ->
  keeps P (Room.findByIdAndDelete id).
Proof. intro Hdel. apply keeps_storeCall. intros w H. simpl. auto. Qed.

End StoreCalls.

Lemma silent_Hotel_save doc : silent (Hotel.save doc).
Proof.
  intros [hs rs fs tr]. unfold Hotel.save, storeCall; simpl.
  destruct fs as [| [e |] fs]; simpl; trivial;
    destruct (existsb _ hs); reflexivity.
Qed.

Lemma silent_Room_save doc : silent (Room.save doc).
Proof.
  intros [hs rs fs tr]. unfold Room.save, storeCall; simpl.
  destruct fs as [| [e |] fs]; simpl; trivial;
    destruct (existsb _ rs); reflexivity.
Qed.

Lemma silent_Hotel_findByIdAndUpdate id u new :
  silent (Hotel.findByIdAndUpdate id u new).
Proof.
  apply silent_storeCall. intro w.
  destruct (List.find _ (hotels w)); reflexivity.
Qed.

Lemma silent_Room_findByIdAndUpdate id body :
  silent (Room.findByIdAndUpdate id body).
Proof.
  apply silent_storeCall. intro w.
  destruct (List.find _ (rooms w)); reflexivity.
Qed.

Lemma silent_Hotel_find cf others gt lt limit :
  silent (Hotel.find cf others gt lt limit).
Proof.
  unfold Hotel.find.
  repeat (first [apply silent_lift | apply silent_bind
                | match goal with |- forall _, _ => intro end]).
  apply silent_storeCall. reflexivity.
Qed.

Ltac split_all := repeat match goal with |- _ /\ _ => split end.

(** Peeling a handler down to its store calls. *)
Ltac keeps_walk :=
  repeat first
    [ apply keeps_Hotel_findById | apply keeps_Hotel_countDocuments
    | apply keeps_Hotel_find | apply keeps_Room_findById
    | apply keeps_Room_find
    | apply keeps_Hotel_save | apply keeps_Hotel_findByIdAndUpdate
    | apply keeps_Hotel_findByIdAndDelete | apply keeps_Room_save
    | apply keeps_Room_findByIdAndUpdate | apply keeps_Room_findByIdAndDelete
    | apply keeps_emit | apply keeps_ret | apply keeps_throw
    | apply keeps_mapM | apply keeps_tryCatch | apply keeps_bind
    | match goal with |- keeps _ (match ?o with _ => _ end) => destruct o end
    | match goal with |- forall _, keeps _ _ => intro end ].

Ltac silent_walk :=
  repeat first
    [ apply silent_Hotel_save | apply silent_Room_save
    | apply silent_Hotel_findByIdAndUpdate
    | apply silent_Room_findByIdAndUpdate | apply silent_Hotel_find
    | (apply silent_storeCall; reflexivity)
    | apply silent_mapM | apply silent_ret | apply silent_throw
    | apply silent_bind
    | match goal with |- forall _, _ => intro end ].

Ltac once_walk :=
  apply tryCatch_answersOnce;
  repeat first
    [ apply answersOrThrows_respond | apply answersOrThrows_throw
    | (apply answersOrThrows_bind; [solve [silent_walk] |])
    | match goal with
      | |- answersOrThrows (match ?o with _ => _ end) => destruct o
      end
    | match goal with |- forall _, _ => intro end ].

(** X1: every handler with a single [try] makes exactly one call on [res] or
    [next], whatever the store holds and whichever of its calls are
    rejected: it answers once, or passes one error on, never both and never
    neither. *)
Theorem single_try_handlers_answer_once :
  forall cf,
    (forall doc, answersOnce (createHotel doc))
    /\ (forall id body, answersOnce (updateHotel id body))
    /\ (forall id, answersOnce (deleteHotel id))
    /\ (forall id, answersOnce (getHotel id))
    /\ (forall query, answersOnce (getHotels cf query))
    /\ (forall s, answersOnce (countByCity (Some s)))
    /\ answersOnce countByType
    /\ (forall id, answersOnce (getHotelRooms id))
    /\ (forall id body, answersOnce (updateRoom id body))
    /\ (forall id, answersOnce (getRoom id))
    /\ answersOnce getRooms.
Proof.
  intro cf. split_all; intros;
    unfold createHotel, updateHotel, deleteHotel, getHotel, getHotels,
      countByCity, countByType, getHotelRooms, updateRoom, getRoom, getRooms;
    once_walk.
Qed.

(** ** What the handlers leave alone *)

(** X2: the seven reading handlers never write: in any world, with any of
    their store calls rejected, both collections are afterwards what they
    were. *)
Theorem reading_handlers_leave_the_store :
  forall cf (w : World),
    let untouched (h : M unit) :=
      hotels (run h w) = hotels w /\ rooms (run h w) = rooms w in
    (forall id, untouched (getHotel id))
    /\ (forall query, untouched (getHotels cf query))
    /\ (forall cities, untouched (countByCity cities))
    /\ untouched countByType
    /\ (forall id, untouched (getHotelRooms id))
    /\ (forall id, untouched (getRoom id))
    /\ untouched getRooms.
Proof.
  intros cf w untouched.
  assert (K : forall h : M unit,
             keeps (fun hs rs => hs = hotels w /\ rs = rooms w) h ->
             untouched h).
  { intros h Hk. apply (Hk w). split; reflexivity. }
  unfold untouched. split_all; intros; apply K;
    unfold getHotel, getHotels, countByCity, countByType, getHotelRooms,
      getRoom, getRooms;
    keeps_walk.
Qed.

Lemma map_updateFirst {A B} (g : A -> B) (p : A -> bool) (f : A -> A) l :
  (forall x, g (f x) = g x) -> map g (updateFirst p f l) = map g l.
Proof.
  intro Hg. induction l as [| x l IH]; simpl; trivial.
  destruct (p x); simpl; [rewrite Hg | rewrite IH]; reflexivity.
Qed.

Lemma in_deleteFirst {A} (p : A -> bool) (l : list A) (y : A) :
  In y (deleteFirst p l) -> In y l.
Proof.
  induction l as [| x l IH]; simpl; trivial.
  destruct (p x); simpl; intuition.
Qed.

Lemma NoDup_map_deleteFirst {A B} (g : A -> B) (p : A -> bool) (l : list A) :
  NoDup (map g l) -> NoDup (map g (deleteFirst p l)).
Proof.
  induction l as [| x l IH]; simpl; trivial.
  intro ND. inversion ND as [| ? ? Hnotin ND']; subst.
  destruct (p x); simpl; trivial.
  constructor; [| apply IH; exact ND'].
  intro Hin. apply Hnotin. apply in_map_iff in Hin.
  destruct Hin as [y [Hy Hin]]. apply in_map_iff. exists y.
  split; trivial. exact (in_deleteFirst p l y Hin).
Qed.

Lemma NoDup_map_snoc {A} (g : A -> nat) (l : list A) (x : A) :
  NoDup (map g l) ->
  existsb (fun y => Nat.eqb (g y) (g x)) l = false ->
  NoDup (map g (l ++ [x])).
Proof.
  intros ND Hfresh. rewrite map_app. simpl.
  apply NoDup_app; [exact ND | repeat constructor; simpl; tauto |].
  intros id Hin [<- | []]. apply in_map_iff in Hin.
  destruct Hin as [y [Hid Hy]].
  assert (existsb (fun y => Nat.eqb (g y) (g x)) l = true).
  { apply existsb_exists. exists y. split; trivial.
    apply Nat.eqb_eq. exact Hid. }
  congruence.
Qed.

Lemma Hotel_applyUpdate_id u h :
  HotelDoc._id (Hotel.applyUpdate u h) = HotelDoc._id h.
Proof. destruct u; reflexivity. Qed.

(** X3: every handler keeps the ids of each collection distinct, in any world
    and under any faults: a save of an id already stored is refused, and no
    update changes an id. *)
Theorem handlers_keep_ids_unique :
  forall cf,
    (forall doc, keeps uniqueIds (createHotel doc))
    /\ (forall id body, keeps uniqueIds (updateHotel id body))
    /\ (forall id, keeps uniqueIds (deleteHotel id))
    /\ (forall id, keeps uniqueIds (getHotel id))
    /\ (forall query, keeps uniqueIds (getHotels cf query))
    /\ (forall cities, keeps uniqueIds (countByCity cities))
    /\ keeps uniqueIds countByType
    /\ (forall id, keeps uniqueIds (getHotelRooms id))
    /\ (forall hotelId doc, keeps uniqueIds (createRoom hotelId doc))
    /\ (forall id body, keeps uniqueIds (updateRoom id body))
    /\ (forall hotelId id, keeps uniqueIds (deleteRoom hotelId id))
    /\ (forall id, keeps uniqueIds (getRoom id))
    /\ keeps uniqueIds getRooms.
Proof.
  intro cf.
  split_all; intros;
    unfold createHotel, updateHotel, deleteHotel, getHotel, getHotels,
      countByCity, countByType, getHotelRooms, createRoom, updateRoom,
      deleteRoom, getRoom, getRooms;
    keeps_walk;
    unfold uniqueIds; intros hs rs [NH NR]; intros; split; trivial.
  - apply NoDup_map_snoc; assumption.
  - rewrite map_updateFirst; [exact NH | apply Hotel_applyUpdate_id].
  - apply NoDup_map_deleteFirst; exact NH.
  - apply NoDup_map_snoc; assumption.
  - rewrite map_updateFirst; [exact NH | apply Hotel_applyUpdate_id].
  - rewrite map_updateFirst; [exact NR | reflexivity].
  - apply NoDup_map_deleteFirst; exact NR.
  - rewrite map_updateFirst; [exact NH | apply Hotel_applyUpdate_id].
Qed.

Lemma handlers_keep_ids_unique_witness :
  let w := quiet [sampleHotel 1 "hotel" "Paris" 100 []] [sampleRoom 7] in
  uniqueIds (hotels w) (rooms w)
  /\ uniqueIds (hotels (run (createRoom 1 (sampleRoom 7)) w))
               (rooms (run (createRoom 1 (sampleRoom 7)) w)).
Proof.
  intro w.
  assert (U : uniqueIds (hotels w) (rooms w)).
  { split; simpl; repeat constructor; simpl; tauto. }
  split; [exact U |].
  destruct (handlers_keep_ids_unique sampleCast)
    as (_ & _ & _ & _ & _ & _ & _ & _ & K & _).
  exact (K 1%nat (sampleRoom 7) w U).
Defined.

(** X4: the handlers other than [createHotel] and [deleteHotel] neither add,
    remove nor reorder Hotels: [updateHotel], [createRoom] and [deleteRoom]
    leave the sequence of Hotel ids as it was, and [updateRoom] leaves the
    Hotels untouched.  Likewise [createHotel], [updateHotel] and
    [deleteHotel] leave the Rooms untouched (deleting a Hotel deletes none of
    its Rooms) and [updateRoom] leaves the sequence of Room ids as it
    was. *)
Theorem writers_stay_in_their_collection :
  forall (w : World),
    (forall id body,
        map HotelDoc._id (hotels (run (updateHotel id body) w))
        = map HotelDoc._id (hotels w)
        /\ rooms (run (updateHotel id body) w) = rooms w)
    /\ (forall hotelId doc,
          map HotelDoc._id (hotels (run (createRoom hotelId doc) w))
          = map HotelDoc._id (hotels w))
    /\ (forall hotelId id,
          map HotelDoc._id (hotels (run (deleteRoom hotelId id) w))
          = map HotelDoc._id (hotels w))
    /\ (forall id body,
          hotels (run (updateRoom id body) w) = hotels w
          /\ map RoomDoc._id (rooms (run (updateRoom id body) w))
             = map RoomDoc._id (rooms w))
    /\ (forall doc, rooms (run (createHotel doc) w) = rooms w)
    /\ (forall id, rooms (run (deleteHotel id) w) = rooms w).
Proof.
  intro w.
  assert (K : forall (P : list HotelDoc.t -> list RoomDoc.t -> Prop)
                     (h : M unit),
             keeps P h -> P (hotels w) (rooms w) ->
             P (hotels (run h w)) (rooms (run h w))).
  { intros P h Hk. apply Hk. }
  split; [| split; [| split; [| split; [| split]]]]; intros.
  - apply (K (fun hs rs => map HotelDoc._id hs = map HotelDoc._id (hotels w)
                           /\ rs = rooms w)); [| split; reflexivity].
    unfold updateHotel. keeps_walk.
    intros hs rs [H1 H2]. split; trivial.
    rewrite map_updateFirst; [exact H1 | apply Hotel_applyUpdate_id].
  - apply (K (fun hs _ => map HotelDoc._id hs = map HotelDoc._id (hotels w)));
      [| reflexivity].
    unfold createRoom. keeps_walk.
    + trivial.
    + intros hs rs H1.
      rewrite map_updateFirst; [exact H1 | apply Hotel_applyUpdate_id].
  - apply (K (fun hs _ => map HotelDoc._id hs = map HotelDoc._id (hotels w)));
      [| reflexivity].
    unfold deleteRoom. keeps_walk.
    + trivial.
    + intros hs rs H1.
      rewrite map_updateFirst; [exact H1 | apply Hotel_applyUpdate_id].
  - apply (K (fun hs rs => hs = hotels w
                           /\ map RoomDoc._id rs = map RoomDoc._id (rooms w)));
      [| split; reflexivity].
    unfold updateRoom. keeps_walk.
    intros hs rs [H1 H2]. split; trivial.
    rewrite map_updateFirst; [exact H2 | reflexivity].
  - apply (K (fun _ rs => rs = rooms w)); [| reflexivity].
    unfold createHotel. keeps_walk. trivial.
  - apply (K (fun _ rs => rs = rooms w)); [| reflexivity].
    unfold deleteHotel. keeps_walk. trivial.
Qed.

(** ** Hotels: create, update, delete, look up *)

Lemma find_snoc_fresh {A} (p : A -> bool) (l : list A) (x : A) :
  existsb p l = false -> p x = true -> List.find p (l ++ [x]) = Some x.
Proof.
  induction l as [| y l IH]; simpl; intros Hf Hx.
  - rewrite Hx. reflexivity.
  - apply orb_false_iff in Hf. destruct Hf as [Hy Hf].
    rewrite Hy. apply IH; assumption.
Qed.

Lemma find_updateFirst_other {A} (g : A -> nat) (a b : nat) (f : A -> A) l :
  (forall x, g (f x) = g x) -> a <> b ->
  List.find (fun x => Nat.eqb (g x) a)
            (updateFirst (fun x => Nat.eqb (g x) b) f l)
  = List.find (fun x => Nat.eqb (g x) a) l.
Proof.
  intros Hg Hab. induction l as [| x l IH]; simpl; trivial.
  destruct (Nat.eqb (g x) b) eqn:Eb; simpl.
  - rewrite Hg. apply Nat.eqb_eq in Eb.
    assert (Ea : Nat.eqb (g x) a = false) by (apply Nat.eqb_neq; congruence).
    rewrite Ea. reflexivity.
  - rewrite IH. reflexivity.
Qed.

Lemma find_deleteFirst_other {A} (g : A -> nat) (a b : nat) l :
  a <> b ->
  List.find (fun x => Nat.eqb (g x) a)
            (deleteFirst (fun x => Nat.eqb (g x) b) l)
  = List.find (fun x => Nat.eqb (g x) a) l.
Proof.
  intro Hab. induction l as [| x l IH]; simpl; trivial.
  destruct (Nat.eqb (g x) b) eqn:Eb; simpl.
  - apply Nat.eqb_eq in Eb.
    assert (Ea : Nat.eqb (g x) a = false) by (apply Nat.eqb_neq; congruence).
    rewrite Ea. reflexivity.
  - rewrite IH. reflexivity.
Qed.

Lemma find_deleteFirst_same {A} (g : A -> nat) (a : nat) l :
  NoDup (map g l) ->
  List.find (fun x => Nat.eqb (g x) a)
            (deleteFirst (fun x => Nat.eqb (g x) a) l) = None.
Proof.
  induction l as [| x l IH]; simpl; trivial.
  intro ND. inversion ND as [| ? ? Hnotin ND']; subst.
  destruct (Nat.eqb (g x) a) eqn:E; simpl.
  - apply Nat.eqb_eq in E.
    destruct (List.find _ l) eqn:F; trivial.
    apply find_some in F. destruct F as [Hin Heq]. apply Nat.eqb_eq in Heq.
    exfalso. apply Hnotin. rewrite E, <- Heq. apply in_map. exact Hin.
  - rewrite E. apply IH. exact ND'.
Qed.

Lemma updateFirst_same {A} (p : A -> bool) (f : A -> A) (l : list A) :
  (forall x, In x l -> p x = true -> f x = x) -> updateFirst p f l = l.
Proof.
  induction l as [| x l IH]; simpl; trivial. intro Hf.
  destruct (p x) eqn:E.
  - rewrite Hf; auto.
  - rewrite IH; auto.
Qed.

(** X5: a Hotel that [createHotel] stores is answered, is put last in the
    collection, and is what a following [getHotel] with its id answers. *)
Theorem createHotel_then_getHotel :
  forall (doc : HotelDoc.t) hs rs,
    existsb (Hotel.hasId (HotelDoc._id doc)) hs = false ->
    let w1 := run (createHotel doc) (quiet hs rs) in
    w1 = mkWorld (hs ++ [doc]) rs [] [Respond 200 (JHotel doc)]
    /\ run (getHotel (HotelDoc._id doc)) (afterwards w1)
       = mkWorld (hs ++ [doc]) rs [] [Respond 200 (JHotel doc)].
Proof.
  intros doc hs rs Hfresh w1.
  assert (E : w1 = mkWorld (hs ++ [doc]) rs [] [Respond 200 (JHotel doc)]).
  { unfold w1, run, createHotel, tryCatch, bind, Hotel.save, storeCall, quiet;
      simpl. rewrite Hfresh. reflexivity. }
  split; [exact E |]. rewrite E.
  unfold run, afterwards, getHotel, tryCatch, bind, Hotel.findById, storeCall;
    simpl.
  rewrite (find_snoc_fresh _ hs doc Hfresh)
    by (unfold Hotel.hasId; apply Nat.eqb_refl).
  reflexivity.
Qed.

Lemma createHotel_then_getHotel_witness :
  let doc := sampleHotel 2 "villa" "Tokyo" 200 [] in
  let hs := [sampleHotel 1 "hotel" "Paris" 100 []] in
  existsb (Hotel.hasId (HotelDoc._id doc)) hs = false
  /\ run (createHotel doc) (quiet hs [])
     = mkWorld (hs ++ [doc]) [] [] [Respond 200 (JHotel doc)]
  /\ run (getHotel (HotelDoc._id doc))
         (afterwards (run (createHotel doc) (quiet hs [])))
     = mkWorld (hs ++ [doc]) [] [] [Respond 200 (JHotel doc)].
Proof.
  intros doc hs. split; [reflexivity |].
  exact (createHotel_then_getHotel doc hs [] eq_refl).
Defined.

(** X6: a document whose id is already stored is not saved a second time:
    [createHotel] and [createRoom] pass the duplicate-key error on, answer
    nothing and write nothing; [createRoom] does not touch the Hotel. *)
Theorem create_refuses_a_stored_id :
  forall hs rs,
    (forall doc,
        existsb (Hotel.hasId (HotelDoc._id doc)) hs = true ->
        run (createHotel doc) (quiet hs rs)
        = mkWorld hs rs [] [Next DuplicateKey])
    /\ (forall hotelId doc,
          existsb (Room.hasId (RoomDoc._id doc)) rs = true ->
          run (createRoom hotelId doc) (quiet hs rs)
          = mkWorld hs rs [] [Next DuplicateKey]).
Proof.
  intros hs rs. split; intros;
    unfold run, createHotel, createRoom, tryCatch, bind, Hotel.save, Room.save,
      storeCall, quiet; simpl;
    rewrite H; reflexivity.
Qed.

(** X7: [updateHotel] on a stored Hotel answers the Hotel as updated, with
    the id it had; a following [getHotel] answers the same document; every
    other Hotel, and every Room, is as before. *)
Theorem updateHotel_then_getHotel :
  forall (id : ObjectId) (body : HotelDoc.patch) hs rs h,
    List.find (Hotel.hasId id) hs = Some h ->
    let w1 := run (updateHotel id body) (quiet hs rs) in
    trace w1 = [Respond 200 (JHotel (HotelDoc.set body h))]
    /\ HotelDoc._id (HotelDoc.set body h) = id
    /\ run (getHotel id) (afterwards w1)
       = mkWorld (hotels w1) (rooms w1) []
                 [Respond 200 (JHotel (HotelDoc.set body h))]
    /\ (forall id', id' <> id ->
          List.find (Hotel.hasId id') (hotels w1)
          = List.find (Hotel.hasId id') hs)
    /\ rooms w1 = rs.
Proof.
  intros id body hs rs h Hh w1.
  assert (E : w1 = mkWorld
                     (updateFirst (Hotel.hasId id)
                        (Hotel.applyUpdate (Hotel.Set_ body)) hs)
                     rs [] [Respond 200 (JHotel (HotelDoc.set body h))]).
  { unfold w1, run, updateHotel, tryCatch, bind, Hotel.findByIdAndUpdate,
      storeCall, quiet; simpl. rewrite Hh. reflexivity. }
  rewrite E; simpl.
  assert (Hid : HotelDoc._id h = id).
  { apply find_some in Hh. destruct Hh as [_ Hh]. apply Nat.eqb_eq. exact Hh. }
  split; [reflexivity | split; [exact Hid | split; [| split]]].
  - unfold run, afterwards, getHotel, tryCatch, bind, Hotel.findById, storeCall;
      simpl.
    rewrite find_updateFirst by reflexivity. rewrite Hh. reflexivity.
  - intros id' Hne.
    exact (find_updateFirst_other HotelDoc._id id' id _ hs
             (Hotel_applyUpdate_id (Hotel.Set_ body)) Hne).
  - reflexivity.
Qed.

Lemma updateHotel_then_getHotel_witness :
  let h := sampleHotel 1 "hotel" "Paris" 100 [] in
  let hs := [h; sampleHotel 2 "villa" "Tokyo" 200 []] in
  let w1 := run (updateHotel 1 (renamePatch "Ritz")) (quiet hs []) in
  List.find (Hotel.hasId 1) hs = Some h
  /\ trace w1 = [Respond 200 (JHotel (HotelDoc.set (renamePatch "Ritz") h))]
  /\ HotelDoc._id (HotelDoc.set (renamePatch "Ritz") h) = 1%nat
  /\ run (getHotel 1) (afterwards w1)
     = mkWorld (hotels w1) (rooms w1) []
               [Respond 200 (JHotel (HotelDoc.set (renamePatch "Ritz") h))]
  /\ (forall id', id' <> 1%nat ->
        List.find (Hotel.hasId id') (hotels w1)
        = List.find (Hotel.hasId id') hs)
  /\ rooms w1 = [].
Proof.
  intros h hs w1. split; [reflexivity |].
  exact (updateHotel_then_getHotel 1 (renamePatch "Ritz") hs [] h eq_refl).
Defined.

Lemma set_emptyBody h : HotelDoc.set emptyBody h = h.
Proof. destruct h. reflexivity. Qed.

Lemma set_twice body h :
  HotelDoc.set body (HotelDoc.set body h) = HotelDoc.set body h.
Proof.
  destruct h, body. unfold HotelDoc.set, HotelDoc.over; simpl.
  repeat match goal with
         | |- context [match ?o with Some _ => _ | None => _ end] =>
             destruct o
         end; reflexivity.
Qed.

Lemma updateFirst_twice {A} (p : A -> bool) (f : A -> A) (l : list A) :
  (forall x, p (f x) = p x) -> (forall x, f (f x) = f x) ->
  updateFirst p f (updateFirst p f l) = updateFirst p f l.
Proof.
  intros Hp Hf. induction l as [| x l IH]; simpl; trivial.
  destruct (p x) eqn:E; simpl.
  - rewrite Hp, E, Hf. reflexivity.
  - rewrite E, IH. reflexivity.
Qed.

(** X8: [updateHotel] with a body that names no field changes nothing and
    answers the Hotel as stored; and sending the same body a second time
    changes nothing more and gets the same answer as the first time. *)
Theorem updateHotel_is_idempotent :
  forall (id : ObjectId) hs rs,
    run (updateHotel id emptyBody) (quiet hs rs)
    = mkWorld hs rs []
        [Respond 200 (nullable JHotel (List.find (Hotel.hasId id) hs))]
    /\ (forall body,
          let w1 := run (updateHotel id body) (quiet hs rs) in
          run (updateHotel id body) (afterwards w1) = w1).
Proof.
  intros id hs rs. split.
  - unfold run, updateHotel, tryCatch, bind, Hotel.findByIdAndUpdate,
      storeCall, quiet; simpl.
    destruct (List.find (Hotel.hasId id) hs) eqn:F; simpl; trivial.
    rewrite updateFirst_same by (intros; apply set_emptyBody).
    rewrite set_emptyBody. reflexivity.
  - intros body w1. unfold w1.
    unfold run, afterwards, updateHotel, tryCatch, bind,
      Hotel.findByIdAndUpdate, storeCall, quiet; simpl.
    destruct (List.find (Hotel.hasId id) hs) eqn:F; simpl.
    + rewrite find_updateFirst by reflexivity. rewrite F; simpl.
      rewrite updateFirst_twice by (intros; simpl; auto using set_twice).
      rewrite set_twice. reflexivity.
    + rewrite F. reflexivity.
Qed.

(** X9: [deleteHotel] on a stored Hotel removes it and answers its
    confirmation; a following [getHotel] with that id answers null; the
    other Hotels are as before, and so is every Room: the Rooms the Hotel
    listed stay stored. *)
Theorem deleteHotel_removes_only_the_hotel :
  forall (id : ObjectId) hs rs h,
    NoDup (map HotelDoc._id hs) ->
    List.find (Hotel.hasId id) hs = Some h ->
    let w1 := run (deleteHotel id) (quiet hs rs) in
    trace w1 = [Respond 200 (JString "Hotel has been deleted")]
    /\ List.find (Hotel.hasId id) (hotels w1) = None
    /\ run (getHotel id) (afterwards w1)
       = mkWorld (hotels w1) (rooms w1) [] [Respond 200 JNull]
    /\ (forall id', id' <> id ->
          List.find (Hotel.hasId id') (hotels w1)
          = List.find (Hotel.hasId id') hs)
    /\ List.length (hotels w1) = pred (List.length hs)
    /\ rooms w1 = rs.
Proof.
  intros id hs rs h ND Hh w1.
  assert (E : w1 = mkWorld (deleteFirst (Hotel.hasId id) hs) rs []
                     [Respond 200 (JString "Hotel has been deleted")]).
  { reflexivity. }
  rewrite E; simpl.
  pose proof (find_deleteFirst_same HotelDoc._id id hs ND) as Hgone.
  split; [reflexivity | split; [exact Hgone | split; [| split; [| split]]]].
  - unfold run, afterwards, getHotel, tryCatch, bind, Hotel.findById, storeCall;
      simpl.
    unfold Hotel.hasId. rewrite Hgone. reflexivity.
  - intros id' Hne.
    exact (find_deleteFirst_other HotelDoc._id id' id hs Hne).
  - clear - Hh. induction hs as [| x hs IH]; simpl in *; [discriminate |].
    destruct (Hotel.hasId id x); trivial.
    simpl. rewrite IH by exact Hh.
    destruct hs; [discriminate | reflexivity].
  - reflexivity.
Qed.

Lemma deleteHotel_removes_only_the_hotel_witness :
  let h := sampleHotel 1 "hotel" "Paris" 100 [7%nat] in
  let hs := [h; sampleHotel 2 "villa" "Tokyo" 200 []] in
  let rs := [sampleRoom 7] in
  let w1 := run (deleteHotel 1) (quiet hs rs) in
  NoDup (map HotelDoc._id hs)
  /\ List.find (Hotel.hasId 1) hs = Some h
  /\ trace w1 = [Respond 200 (JString "Hotel has been deleted")]
  /\ List.find (Hotel.hasId 1) (hotels w1) = None
  /\ run (getHotel 1) (afterwards w1)
     = mkWorld (hotels w1) (rooms w1) [] [Respond 200 JNull]
  /\ (forall id', id' <> 1%nat ->
        List.find (Hotel.hasId id') (hotels w1)
        = List.find (Hotel.hasId id') hs)
  /\ List.length (hotels w1) = pred (List.length hs)
  /\ rooms w1 = rs.
Proof.
  intros h hs rs w1.
  assert (ND : NoDup (map HotelDoc._id hs)).
  { simpl. repeat constructor; simpl; intuition discriminate. }
  split; [exact ND | split; [reflexivity |]].
  exact (deleteHotel_removes_only_the_hotel 1 hs rs h ND eq_refl).
Defined.

(** ** Searching Hotels: bounds, limit, filters *)

Lemma wrap32_small (n : Z) : - 2 ^ 31 <= n < 2 ^ 31 -> JS.wrap32 n = n.
Proof.
  intro Hn. unfold JS.wrap32.
  destruct (Z.leb_spec 0 n) as [Hpos | Hneg].
  - rewrite Z.mod_small by lia.
    destruct (Z.leb_spec (2 ^ 31) n); lia.
  - rewrite <- (Z.mod_unique n (2 ^ 32) (-1) (n + 2 ^ 32)) by lia.
    destruct (Z.leb_spec (2 ^ 31) (n + 2 ^ 32)); lia.
Qed.

Lemma lor_1 (n : Z) : Z.lor n 1 = if Z.even n then n + 1 else n.
Proof.
  pose proof (Z.add_lor_land n 1) as H.
  change 1 with (Z.ones 1) in H at 2. rewrite Z.land_ones in H by lia.
  change (2 ^ 1) with 2 in H. change (Z.ones 1) with 1 in H.
  rewrite Zeven_mod. pose proof (Z.mod_pos_bound n 2 ltac:(lia)) as B.
  destruct (Z.eqb_spec (n mod 2) 0); lia.
Qed.

(** X10: the lower price bound [min | 1] is always odd, whatever the [min]
    parameter is; for an integer in the 32-bit range it is the integer itself
    when odd and the integer plus one when even, so an even bound is never
    the one the store is asked for. *)
Theorem lowerBound_is_the_next_odd :
  (forall min : JS.value, Z.odd (lowerBound min) = true)
  /\ (forall n : Z,
        - 2 ^ 31 <= n < 2 ^ 31 ->
        lowerBound (JS.Num (JS.ofZ n)) = if Z.even n then n + 1 else n).
Proof.
  split.
  - intro min. unfold lowerBound, JS.bitor.
    rewrite <- Z.bit0_odd, Z.lor_spec.
    change (JS.ToInt32 (JS.ToNumber one)) with 1.
    rewrite orb_true_r. reflexivity.
  - intros n Hn. unfold lowerBound, JS.bitor.
    change (JS.ToInt32 (JS.ToNumber one)) with 1.
    rewrite <- lor_1. f_equal. simpl.
    rewrite Z.quot_1_r. apply wrap32_small. exact Hn.
Qed.

Lemma limit_of_integer {A} (n : Z) (l : list A) :
  applyLimit (Some (JS.ofZ n)) l
  = Ok (if n =? 0 then l else firstn (Z.abs_nat n) l).
Proof.
  unfold applyLimit, JS.ofZ.
  rewrite Qcanon.Qred_identity by (simpl; apply Z.gcd_1_r).
  simpl. destruct n as [| p | p]; simpl; trivial;
    pose proof (Pos2Nat.is_pos p);
    destruct (Pos.to_nat p); [lia | reflexivity | lia | reflexivity].
Qed.

(** [Hotel.find] in a world with no fault to come, once everything casts. *)
Lemma find_limited cf others gt lt limit lim cond hi hs rs tr :
  match limit with
  | JS.Str _ => castNumber "limit" limit
  | JS.Num n => Ok (Some n)
  | JS.Undefined => Ok None
  end = Ok lim ->
  Hotel.castOthers cf others = Ok cond ->
  castNumber "cheapestPrice" lt = Ok hi ->
  Hotel.find cf others gt lt limit (mkWorld hs rs [] tr)
  = (applyLimit lim
       (List.filter (fun h => cond h && inRange gt hi h) hs),
     mkWorld hs rs [] tr).
Proof.
  intros Hlim Hc Hl. unfold Hotel.find, bind, Hotel.lift.
  rewrite Hlim, Hc, Hl. simpl.
  replace (List.filter _ hs)
    with (List.filter (fun h => cond h && inRange gt hi h) hs).
  - destruct (applyLimit lim _); reflexivity.
  - apply filter_ext. intro h. unfold inRange.
    rewrite andb_assoc. reflexivity.
Qed.

(** X11: with a [limit] parameter that is the integer n, given as a number
    or as a numeric string, [getHotels] answers the first |n| of the matching
    Hotels in storage order, and all of them when n is 0. *)
Theorem getHotels_limit_takes_a_prefix :
  forall cf (query : Query) (n : Z) cond hi hs rs,
    (get "limit" query = JS.Num (JS.ofZ n)
     \/ exists s, get "limit" query = JS.Str s
                  /\ s <> "" /\ JS.StringToNumber s = JS.ofZ n) ->
    Hotel.castOthers cf
      (without ["cheapestPrice"] (without ["min"; "max"] query)) = Ok cond ->
    castNumber "cheapestPrice" (upperBound (get "max" query)) = Ok hi ->
    let matching :=
      List.filter
        (fun h => cond h && inRange (lowerBound (get "min" query)) hi h) hs in
    run (getHotels cf query) (quiet hs rs)
    = mkWorld hs rs []
        [Respond 200
           (JArray (map JHotel
              (if n =? 0 then matching else firstn (Z.abs_nat n) matching)))].
Proof.
  intros cf query n cond hi hs rs Hlim Hc Hhi matching.
  assert (Hcast : match get "limit" query with
                  | JS.Str _ => castNumber "limit" (get "limit" query)
                  | JS.Num k => Ok (Some k)
                  | JS.Undefined => Ok None
                  end = Ok (Some (JS.ofZ n))).
  { destruct Hlim as [-> | [s [-> [Hne Hs]]]]; trivial.
    unfold castNumber. apply String.eqb_neq in Hne. rewrite Hne, Hs.
    reflexivity. }
  unfold run, getHotels, tryCatch, bind, quiet.
  rewrite (find_limited cf _ _ _ _ _ cond hi hs rs [] Hcast Hc Hhi).
  fold matching. rewrite limit_of_integer. reflexivity.
Qed.

Lemma getHotels_limit_takes_a_prefix_witness :
  let query := [("city", JS.Str "Paris"); ("limit", JS.Str "2")] in
  let hs := [sampleHotel 1 "hotel" "Paris" 100 [];
             sampleHotel 2 "villa" "Tokyo" 200 [];
             sampleHotel 3 "hotel" "Paris" 120 [];
             sampleHotel 4 "cabin" "Paris" 90 []] in
  let cond := fun h => String.eqb (HotelDoc.city h) "Paris" && true in
  let matching :=
    List.filter
      (fun h => cond h
                && inRange (lowerBound (get "min" query))
                           (Some (JS.ofZ 999)) h) hs in
  (get "limit" query = JS.Num (JS.ofZ 2)
   \/ exists s, get "limit" query = JS.Str s
                /\ s <> "" /\ JS.StringToNumber s = JS.ofZ 2)
  /\ run (getHotels sampleCast query) (quiet hs [])
     = mkWorld hs [] []
         [Respond 200
            (JArray (map JHotel
               (if 2 =? 0 then matching else firstn (Z.abs_nat 2) matching)))].
Proof.
  intros query hs cond matching.
  assert (Hlim : get "limit" query = JS.Num (JS.ofZ 2)
                 \/ exists s, get "limit" query = JS.Str s
                              /\ s <> "" /\ JS.StringToNumber s = JS.ofZ 2).
  { right. exists "2". split; [reflexivity | split; [discriminate |]].
    vm_compute. reflexivity. }
  split; [exact Hlim |].
  exact (getHotels_limit_takes_a_prefix sampleCast query 2 cond
           (Some (JS.ofZ 999)) hs [] Hlim eq_refl eq_refl).
Defined.


(** X12: the upper price bound [max || 999].  A [max] that is falsy (absent,
    the empty string, the number 0, NaN) is the same as no [max]: the bound is
    999.  A [max] string that is not a number makes the search fail with the
    driver's cast error before the store is asked anything, while the same
    string as [min] is silently read as the bound 1. *)
Theorem getHotels_upper_bound_edges :
  forall cf (query : Query) (w : World),
    (forall max,
        JS.ToBoolean max = false ->
        run (getHotels cf (("max", max) :: query)) w
        = run (getHotels cf (("max", JS.Undefined) :: query)) w)
    /\ (forall s min,
          s <> "" -> JS.StringToNumber s = JS.NaN ->
          run (getHotels cf [("min", min); ("max", JS.Str s)]) w
          = mkWorld (hotels w) (rooms w) (faults w)
                    (trace w ++ [Next (CastError "cheapestPrice")])
          /\ lowerBound (JS.Str s) = 1).
Proof.
  intros cf query w. split.
  - intros max Hf. unfold getHotels; simpl.
    unfold upperBound, JS.or. rewrite Hf. reflexivity.
  - intros s min Hne Hnan. split.
    + assert (Ht : JS.ToBoolean (JS.Str s) = true).
      { simpl. apply String.eqb_neq in Hne. rewrite Hne. reflexivity. }
      assert (Hc : castNumber "cheapestPrice" (JS.Str s)
                   = Thrown (CastError "cheapestPrice")).
      { unfold castNumber. apply String.eqb_neq in Hne.
        rewrite Hne, Hnan. reflexivity. }
      unfold run, getHotels, tryCatch, Hotel.find, Hotel.lift; simpl.
      unfold upperBound, JS.or. rewrite Ht, Hc. destruct w; reflexivity.
    + unfold lowerBound, JS.bitor; simpl. rewrite Hnan. reflexivity.
Qed.

Lemma get_insert (k k' : string) (v : JS.value) (q1 q2 : Query) :
  String.eqb k k' = false ->
  get k' (q1 ++ (k, v) :: q2) = get k' (q1 ++ q2).
Proof.
  intro Hk. induction q1 as [| [k0 v0] q1 IH]; simpl.
  - rewrite Hk. reflexivity.
  - rewrite IH. reflexivity.
Qed.

(** X13: a [cheapestPrice] parameter in the query string has no effect: the
    price condition built from [min] and [max] replaces it, whatever its
    value and wherever it stands. *)
Theorem getHotels_ignores_a_cheapestPrice_parameter :
  forall cf (q1 q2 : Query) (v : JS.value) (w : World),
    run (getHotels cf (q1 ++ ("cheapestPrice", v) :: q2)) w
    = run (getHotels cf (q1 ++ q2)) w.
Proof.
  intros cf q1 q2 v w. unfold getHotels.
  rewrite !(get_insert "cheapestPrice") by reflexivity.
  unfold without. rewrite !filter_app. reflexivity.
Qed.

Lemma castOthers_sound cf others cond :
  Hotel.castOthers cf others = Ok cond ->
  forall h, cond h = true ->
    forall k v, In (k, v) others ->
      exists p, cf k v = Some p /\ p h = true.
Proof.
  revert cond. induction others as [| [k0 v0] others IH]; intros cond Hc h Hh k v Hin.
  - destruct Hin.
  - simpl in Hc. destruct (cf k0 v0) as [p0 |] eqn:E0; [| discriminate].
    destruct (Hotel.castOthers cf others) as [ps | e] eqn:Er; [| discriminate].
    injection Hc as <-. apply andb_true_iff in Hh. destruct Hh as [Hp Hps].
    destruct Hin as [Heq | Hin].
    + injection Heq as <- <-. exists p0. split; assumption.
    + exact (IH ps eq_refl h Hps k v Hin).
Qed.

Lemma in_limited {A} (lim : option JS.number) (l l' : list A) :
  applyLimit lim l = Ok l' -> forall x, In x l' -> In x l.
Proof.
  unfold applyLimit. intros H x Hx.
  destruct lim as [[| | | q] |]; try discriminate.
  - destruct (Pos.eqb _ 1); [| discriminate]. injection H as <-.
    destruct (Z.abs_nat _); trivial.
    rewrite <- (firstn_skipn (S n) l). apply in_or_app. left. exact Hx.
  - injection H as <-. exact Hx.
Qed.

(** X14: whatever the query, a Hotel that [getHotels] answers is a stored
    one, is priced strictly above the lower bound and under the upper bound,
    and satisfies every attribute filter of the query (each parameter other
    than [min], [max] and [cheapestPrice], the [limit] parameter included). *)
Theorem getHotels_answers_only_matches :
  forall cf (query : Query) hs rs body,
    trace (run (getHotels cf query) (quiet hs rs)) = [Respond 200 body] ->
    exists found hi,
      body = JArray (map JHotel found)
      /\ castNumber "cheapestPrice" (upperBound (get "max" query)) = Ok hi
      /\ forall h, In h found ->
           In h hs
           /\ (inject_Z (lowerBound (get "min" query))
               < HotelDoc.cheapestPrice h)%Q
           /\ ltBound (HotelDoc.cheapestPrice h) hi = true
           /\ (forall k v,
                 In (k, v)
                    (without ["cheapestPrice"] (without ["min"; "max"] query)) ->
                 exists p, cf k v = Some p /\ p h = true).
Proof.
  intros cf query hs rs body Htr.
  unfold run, getHotels, tryCatch, bind, quiet in Htr.
  set (others := without ["cheapestPrice"] (without ["min"; "max"] query)) in *.
  set (w := mkWorld hs rs [] []) in *.
  pose proof (silent_Hotel_find cf others (lowerBound (get "min" query))
                (upperBound (get "max" query)) (get "limit" query) w) as Hsil.
  destruct (Hotel.find cf others _ _ _ w) as [[found | e] w'] eqn:F;
    simpl in Htr, Hsil; rewrite Hsil in Htr; simpl in Htr;
    [| discriminate].
  injection Htr as <-.
  unfold Hotel.find, bind, Hotel.lift in F.
  destruct (match get "limit" query with
            | JS.Str _ => castNumber "limit" (get "limit" query)
            | JS.Num n => Ok (Some n)
            | JS.Undefined => Ok None
            end) as [lim | e]; [| discriminate].
  destruct (Hotel.castOthers cf others) as [cond | e] eqn:Hc; [| discriminate].
  simpl in F.
  destruct (castNumber "cheapestPrice" (upperBound (get "max" query)))
    as [hi | e] eqn:Hhi; [| discriminate].
  simpl in F.
  match type of F with
  | context [applyLimit lim ?l] =>
      destruct (applyLimit lim l) as [found' | e] eqn:Hlim
  end; [| discriminate].
  injection F as <- _.
  exists found', hi. split; [reflexivity | split; [reflexivity |]].
  intros h Hin. apply (in_limited _ _ _ Hlim) in Hin.
  apply filter_In in Hin. destruct Hin as [Hin Hm].
  apply andb_true_iff in Hm. destruct Hm as [Hm Hlt].
  apply andb_true_iff in Hm. destruct Hm as [Hcond Hgt].
  split; [exact Hin | split; [| split; [exact Hlt |]]].
  - apply Qltb_lt. exact Hgt.
  - exact (castOthers_sound cf others cond Hc h Hcond).
Qed.

Lemma getHotels_answers_only_matches_witness :
  let query := [("city", JS.Str "Paris"); ("min", JS.Str "100")] in
  let h := sampleHotel 3 "hotel" "Paris" 120 [] in
  let hs := [sampleHotel 1 "hotel" "Paris" 100 [];
             sampleHotel 2 "villa" "Tokyo" 200 []; h] in
  trace (run (getHotels sampleCast query) (quiet hs []))
  = [Respond 200 (JArray [JHotel h])]
  /\ exists found hi,
       JArray [JHotel h] = JArray (map JHotel found)
       /\ castNumber "cheapestPrice" (upperBound (get "max" query)) = Ok hi
       /\ forall h, In h found ->
            In h hs
            /\ (inject_Z (lowerBound (get "min" query))
                < HotelDoc.cheapestPrice h)%Q
            /\ ltBound (HotelDoc.cheapestPrice h) hi = true
            /\ (forall k v,
                  In (k, v)
                     (without ["cheapestPrice"]
                              (without ["min"; "max"] query)) ->
                  exists p, sampleCast k v = Some p /\ p h = true).
Proof.
  intros query h hs.
  assert (Htr : trace (run (getHotels sampleCast query) (quiet hs []))
                = [Respond 200 (JArray [JHotel h])]) by (vm_compute; reflexivity).
  split; [exact Htr |].
  exact (getHotels_answers_only_matches sampleCast query hs [] _ Htr).
Defined.

(** ** Counting: shape of the answer, rejected counts *)

Lemma split_length (s : string) :
  List.length (JS.split "," s) = S (commas s).
Proof.
  induction s as [| c r IH]; simpl; trivial.
  destruct (Ascii.eqb c ","); simpl; [rewrite IH; reflexivity |].
  pose proof (split_not_nil "," r) as Hn.
  destruct (JS.split "," r); [contradiction | exact IH].
Qed.

Lemma concat_split (s : string) : String.concat "," (JS.split "," s) = s.
Proof.
  induction s as [| c r IH]; simpl; trivial.
  pose proof (split_not_nil "," r) as Hn.
  destruct (Ascii.eqb_spec c ",") as [-> |].
  - destruct (JS.split "," r) as [| h t]; [contradiction |].
    change (String.concat "," ("" :: h :: t))
      with ("," ++ String.concat "," (h :: t))%string.
    rewrite IH. reflexivity.
  - destruct (JS.split "," r) as [| h t]; [contradiction |].
    destruct t as [| t1 t]; simpl in *; rewrite <- IH; reflexivity.
Qed.

(** X15: [countByCity] answers one count for each piece of the [cities]
    parameter between its commas, so one more count than there are commas:
    the empty parameter gets one count, for the empty city name, and a
    trailing comma gets a count for it too.  The names counted, joined by
    commas, are the parameter again. *)
Theorem countByCity_one_count_per_piece :
  forall (s : string) hs rs,
    exists counts,
      run (countByCity (Some s)) (quiet hs rs)
      = mkWorld hs rs [] [Respond 200 (JArray (map JNumber counts))]
      /\ counts = map (inCity hs) (JS.split "," s)
      /\ List.length counts = S (commas s)
      /\ String.concat "," (JS.split "," s) = s.
Proof.
  intros s hs rs. exists (map (inCity hs) (JS.split "," s)).
  split; [apply countByCity_quiet | split; [reflexivity | split]].
  - rewrite length_map. apply split_length.
  - apply concat_split.
Qed.

(** X16: the failures of [countByCity].  Without a [cities] parameter the
    handler throws before its [try]: it calls neither [res] nor [next] and
    leaves the world as it was.  When the store rejects one of the counts,
    the error is passed on, nothing is answered and no partial list is
    sent. *)
Theorem countByCity_failures :
  (forall w, exists what, countByCity None w = (Thrown (TypeError what), w))
  /\ (forall (s : string) (k : nat) e fs hs rs,
        (k <= commas s)%nat ->
        let w' := run (countByCity (Some s))
                      (mkWorld hs rs (repeat None k ++ Some e :: fs) []) in
        trace w' = [Next e] /\ hotels w' = hs /\ rooms w' = rs).
Proof.
  split.
  - intro w. eexists. reflexivity.
  - intros s k e fs hs rs Hk.
    unfold run, countByCity, tryCatch, bind, Hotel.countDocuments.
    destruct (mapM_reads_rejected
                (fun city w => Hotel.count (Hotel.ByCity city) (hotels w))
                (JS.split "," s) k e fs hs rs [])
      as [fs' ->]; [rewrite split_length; lia |].
    simpl. repeat split.
Qed.

(** X17: [countByType] asks its five counts one after the other; when the
    store rejects one of them the error is passed on, nothing is answered,
    and the counts after it are not asked for. *)
Theorem countByType_stops_at_a_rejected_count :
  forall (k : nat) e fs hs rs,
    (k < 5)%nat ->
    run countByType (mkWorld hs rs (repeat None k ++ Some e :: fs) [])
    = mkWorld hs rs fs [Next e].
Proof.
  intros k e fs hs rs Hk.
  do 5 (destruct k as [| k]; [reflexivity |]). lia.
Qed.

Lemma countByType_stops_at_a_rejected_count_witness :
  let e := DriverError "connection lost" in
  let hs := [sampleHotel 1 "hotel" "Paris" 100 []] in
  (2 < 5)%nat
  /\ run countByType (mkWorld hs [] (repeat None 2 ++ [Some e; Some e]) [])
     = mkWorld hs [] [Some e] [Next e].
Proof.
  intros e hs. split; [lia |].
  apply (countByType_stops_at_a_rejected_count 2 e [Some e] hs []). lia.
Defined.

(** The five type values [countByType] asks the store about. *)
Lemma tracked_exclusive (t : string) :
  (Nat.b2n (String.eqb t "hotel") + Nat.b2n (String.eqb t "apartment")
   + Nat.b2n (String.eqb t "resort") + Nat.b2n (String.eqb t "villa")
   + Nat.b2n (String.eqb t "cabin"))%nat
  = Nat.b2n (existsb (String.eqb t)
                     ["hotel"; "apartment"; "resort"; "villa"; "cabin"]).
Proof.
  simpl.
  destruct (String.eqb_spec t "hotel") as [-> |]; [reflexivity |].
  destruct (String.eqb_spec t "apartment") as [-> |]; [reflexivity |].
  destruct (String.eqb_spec t "resort") as [-> |]; [reflexivity |].
  destruct (String.eqb_spec t "villa") as [-> |]; [reflexivity |].
  destruct (String.eqb t "cabin"); reflexivity.
Qed.

Lemma count_cons f h hs :
  Hotel.count f (h :: hs) = (Nat.b2n (Hotel.matches f h) + Hotel.count f hs)%nat.
Proof. unfold Hotel.count; simpl. destruct (Hotel.matches f h); reflexivity. Qed.

(** X18: the five counts of [countByType] add up to the number of stored
    Hotels whose type is one of hotel, apartment, resort, villa, cabin: each
    such Hotel is counted once, and a Hotel of any other type in none of the
    five. *)
Theorem countByType_counts_each_tracked_hotel_once :
  forall hs rs,
    exists a b c d e : nat,
      run countByType (quiet hs rs)
      = mkWorld hs rs []
          [Respond 200
             (JArray [typeCount "hotel" a; typeCount "apartments" b;
                      typeCount "resorts" c; typeCount "villas" d;
                      typeCount "cabins" e])]
      /\ (a + b + c + d + e)%nat
         = List.length
             (List.filter
                (fun h => existsb (String.eqb (HotelDoc.type h))
                            ["hotel"; "apartment"; "resort"; "villa"; "cabin"])
                hs)
      /\ (a + b + c + d + e <= List.length hs)%nat.
Proof.
  intros hs rs.
  exists (Hotel.count (Hotel.ByType "hotel") hs),
         (Hotel.count (Hotel.ByType "apartment") hs),
         (Hotel.count (Hotel.ByType "resort") hs),
         (Hotel.count (Hotel.ByType "villa") hs),
         (Hotel.count (Hotel.ByType "cabin") hs).
  split; [reflexivity |].
  assert (Hsum : (Hotel.count (Hotel.ByType "hotel") hs
               + Hotel.count (Hotel.ByType "apartment") hs
               + Hotel.count (Hotel.ByType "resort") hs
               + Hotel.count (Hotel.ByType "villa") hs
               + Hotel.count (Hotel.ByType "cabin") hs)%nat
              = List.length
                  (List.filter
                     (fun h => existsb (String.eqb (HotelDoc.type h))
                                 ["hotel"; "apartment"; "resort"; "villa";
                                  "cabin"]) hs)).
  { induction hs as [| h hs IH]; [reflexivity |].
    rewrite !count_cons. cbn [List.filter].
    pose proof (tracked_exclusive (HotelDoc.type h)) as T.
    cbn [Hotel.matches].
    destruct (existsb (String.eqb (HotelDoc.type h)) _); cbn [Nat.b2n] in T;
      cbn [List.length]; lia. }
  split; [exact Hsum |]. rewrite Hsum. apply filter_length_le.
Qed.

(** ** Rooms and their Hotel *)

(** X19: [getHotelRooms] with an id that matches no Hotel does not answer
    null as [getHotel] does: reading [rooms] of the null Hotel throws, the
    TypeError is passed on and no Room is looked up. *)
Theorem getHotelRooms_unknown_hotel_is_an_error :
  forall (id : ObjectId) hs rs fs,
    List.find (Hotel.hasId id) hs = None ->
    exists what,
      run (getHotelRooms id) (quiet hs rs)
      = mkWorld hs rs [] [Next (TypeError what)]
      /\ run (getHotelRooms id) (mkWorld hs rs (None :: fs) [])
         = mkWorld hs rs fs [Next (TypeError what)].
Proof.
  intros id hs rs fs Hh. eexists.
  unfold run, getHotelRooms, tryCatch, bind, Hotel.findById, storeCall, quiet;
    simpl.
  rewrite Hh. split; reflexivity.
Qed.

Lemma getHotelRooms_unknown_hotel_is_an_error_witness :
  let hs := [sampleHotel 1 "hotel" "Paris" 100 [7%nat]] in
  let rs := [sampleRoom 7] in
  List.find (Hotel.hasId 2) hs = None
  /\ exists what,
       run (getHotelRooms 2) (quiet hs rs)
       = mkWorld hs rs [] [Next (TypeError what)]
       /\ run (getHotelRooms 2) (mkWorld hs rs [None; None] [])
          = mkWorld hs rs [None] [Next (TypeError what)].
Proof.
  intros hs rs. split; [reflexivity |].
  exact (getHotelRooms_unknown_hotel_is_an_error 2 hs rs [None] eq_refl).
Defined.

(** X20: once [createRoom] has gone through for a stored Hotel, [getRoom]
    with the new id answers the Room, [getRooms] lists it last, and
    [getHotelRooms] for that Hotel answers one entry more than the Hotel
    listed before, the last one being the Room. *)
Theorem createRoom_then_reads :
  forall (hotelId : ObjectId) (doc : RoomDoc.t) hs rs h,
    List.find (Hotel.hasId hotelId) hs = Some h ->
    existsb (Room.hasId (RoomDoc._id doc)) rs = false ->
    let w1 := afterwards (run (createRoom hotelId doc) (quiet hs rs)) in
    trace (run (getRoom (RoomDoc._id doc)) w1) = [Respond 200 (JRoom doc)]
    /\ trace (run getRooms w1) = [Respond 200 (JArray (map JRoom (rs ++ [doc])))]
    /\ trace (run (getHotelRooms hotelId) w1)
       = [Respond 200
            (JArray
               (map (fun r => nullable JRoom
                                (List.find (Room.hasId r) (rs ++ [doc])))
                    (HotelDoc.rooms h)
                ++ [JRoom doc]))].
Proof.
  intros hotelId doc hs rs h Hh Hfresh w1.
  destruct (createRoom_runs hotelId doc hs rs [] [] Hfresh) as [_ [_ Hc]].
  assert (Hnew : List.find (Room.hasId (RoomDoc._id doc)) (rs ++ [doc])
                 = Some doc).
  { apply find_snoc_fresh; [exact Hfresh |].
    unfold Room.hasId. apply Nat.eqb_refl. }
  unfold w1, quiet. rewrite Hc. unfold afterwards; simpl.
  split; [| split].
  - unfold run, getRoom, tryCatch, bind, Room.findById, storeCall; simpl.
    rewrite Hnew. reflexivity.
  - reflexivity.
  - change (mkWorld ?a ?b [] []) with (quiet a b).
    rewrite (getHotelRooms_quiet hotelId
               (Hotel.applyUpdate (Hotel.Push_rooms (RoomDoc._id doc)) h)).
    + simpl. rewrite map_app. simpl. rewrite Hnew. reflexivity.
    + rewrite find_updateFirst by reflexivity. rewrite Hh. reflexivity.
Qed.

Lemma createRoom_then_reads_witness :
  let h := sampleHotel 1 "hotel" "Paris" 100 [7%nat] in
  let hs := [h] in
  let rs := [sampleRoom 7] in
  let doc := sampleRoom 8 in
  let w1 := afterwards (run (createRoom 1 doc) (quiet hs rs)) in
  List.find (Hotel.hasId 1) hs = Some h
  /\ existsb (Room.hasId (RoomDoc._id doc)) rs = false
  /\ trace (run (getRoom (RoomDoc._id doc)) w1) = [Respond 200 (JRoom doc)]
  /\ trace (run getRooms w1) = [Respond 200 (JArray (map JRoom (rs ++ [doc])))]
  /\ trace (run (getHotelRooms 1) w1)
     = [Respond 200
          (JArray
             (map (fun r => nullable JRoom
                              (List.find (Room.hasId r) (rs ++ [doc])))
                  (HotelDoc.rooms h)
              ++ [JRoom doc]))].
Proof.
  intros h hs rs doc w1. split; [reflexivity | split; [reflexivity |]].
  exact (createRoom_then_reads 1 doc hs rs h eq_refl eq_refl).
Defined.

Lemma nth_error_map_some {A B} (f : A -> B) (l : list A) i a :
  nth_error l i = Some a -> nth_error (map f l) i = Some (f a).
Proof. intro H. rewrite nth_error_map, H. reflexivity. Qed.

(** X21: [deleteRoom] when the store rejects one of its two calls.  A
    rejected delete ends the request: the error is passed on and the Hotel is
    not touched.  A rejected [$pull] after the delete is passed on and the
    confirmation is answered all the same; the Room is gone and the Hotel
    still lists its id, so [getHotelRooms] then answers null at each place
    of that id. *)
Theorem deleteRoom_with_a_rejected_call :
  forall (r : ObjectId) (H : HotelDoc.t) hs rs e fs,
    NoDup (map RoomDoc._id rs) ->
    List.find (Hotel.hasId (HotelDoc._id H)) hs = Some H ->
    run (deleteRoom (HotelDoc._id H) r) (mkWorld hs rs (Some e :: fs) [])
    = mkWorld hs rs fs [Next e]
    /\ (let w1 := run (deleteRoom (HotelDoc._id H) r)
                      (mkWorld hs rs [None; Some e] []) in
        w1 = mkWorld hs (deleteFirst (Room.hasId r) rs) []
               [Next e; Respond 200 (JString "Room has been deleted")]
        /\ exists entries,
             trace (run (getHotelRooms (HotelDoc._id H)) (afterwards w1))
             = [Respond 200 (JArray entries)]
             /\ List.length entries = List.length (HotelDoc.rooms H)
             /\ forall i, nth_error (HotelDoc.rooms H) i = Some r ->
                          nth_error entries i = Some JNull).
Proof.
  intros r H hs rs e fs ND HH. split; [reflexivity |].
  intro w1.
  assert (E : w1 = mkWorld hs (deleteFirst (Room.hasId r) rs) []
                     [Next e; Respond 200 (JString "Room has been deleted")])
    by reflexivity.
  split; [exact E |]. rewrite E. unfold afterwards; simpl.
  change (mkWorld ?a ?b [] []) with (quiet a b).
  rewrite (getHotelRooms_quiet _ H) by exact HH.
  eexists. split; [reflexivity | split; [apply length_map |]].
  intros i Hi. rewrite (nth_error_map_some _ _ _ _ Hi).
  rewrite (find_deleteFirst_unique r rs ND). reflexivity.
Qed.

Lemma deleteRoom_with_a_rejected_call_witness :
  let H := sampleHotel 1 "hotel" "Paris" 100 [7%nat; 8%nat] in
  let hs := [H] in
  let rs := [sampleRoom 7; sampleRoom 8] in
  let e := DriverError "connection lost" in
  NoDup (map RoomDoc._id rs)
  /\ List.find (Hotel.hasId (HotelDoc._id H)) hs = Some H
  /\ run (deleteRoom (HotelDoc._id H) 7) (mkWorld hs rs [Some e] [])
     = mkWorld hs rs [] [Next e]
  /\ (let w1 := run (deleteRoom (HotelDoc._id H) 7)
                    (mkWorld hs rs [None; Some e] []) in
      w1 = mkWorld hs (deleteFirst (Room.hasId 7) rs) []
             [Next e; Respond 200 (JString "Room has been deleted")]
      /\ exists entries,
           trace (run (getHotelRooms (HotelDoc._id H)) (afterwards w1))
           = [Respond 200 (JArray entries)]
           /\ List.length entries = List.length (HotelDoc.rooms H)
           /\ forall i, nth_error (HotelDoc.rooms H) i = Some 7%nat ->
                        nth_error entries i = Some JNull).
Proof.
  intros H hs rs e.
  assert (ND : NoDup (map RoomDoc._id rs)).
  { simpl. repeat constructor; simpl; intuition discriminate. }
  split; [exact ND | split; [reflexivity |]].
  exact (deleteRoom_with_a_rejected_call 7 H hs rs e [] ND eq_refl).
Defined.

(** X22: [deleteRoom] removes nothing but what it names.  Every Room with
    another id is stored as before; every Hotel with another id than
    [hotelId] is as before, so a Hotel that lists the Room under another id
    keeps the dangling reference; and the named Hotel keeps its other room
    ids in their order. *)
Theorem deleteRoom_removes_nothing_else :
  forall (hotelId r : ObjectId) hs rs,
    let w1 := run (deleteRoom hotelId r) (quiet hs rs) in
    (forall r', r' <> r ->
        List.find (Room.hasId r') (rooms w1) = List.find (Room.hasId r') rs)
    /\ (forall id', id' <> hotelId ->
          List.find (Hotel.hasId id') (hotels w1)
          = List.find (Hotel.hasId id') hs)
    /\ (forall h, List.find (Hotel.hasId hotelId) hs = Some h ->
          exists h',
            List.find (Hotel.hasId hotelId) (hotels w1) = Some h'
            /\ HotelDoc.rooms h'
               = List.filter (fun x => negb (Nat.eqb x r)) (HotelDoc.rooms h)
            /\ forall x, In x (HotelDoc.rooms h') <->
                         In x (HotelDoc.rooms h) /\ x <> r).
Proof.
  intros hotelId r hs rs w1.
  assert (E : w1 = mkWorld
                     (match List.find (Hotel.hasId hotelId) hs with
                      | Some _ =>
                          updateFirst (Hotel.hasId hotelId)
                            (Hotel.applyUpdate (Hotel.Pull_rooms r)) hs
                      | None => hs
                      end)
                     (deleteFirst (Room.hasId r) rs) []
                     [Respond 200 (JString "Room has been deleted")]).
  { unfold w1, run, deleteRoom, tryCatch, bind, Room.findByIdAndDelete,
      Hotel.findByIdAndUpdate, storeCall, quiet; simpl.
    destruct (List.find (Hotel.hasId hotelId) hs); reflexivity. }
  rewrite E; simpl. split; [| split].
  - intros r' Hne. exact (find_deleteFirst_other RoomDoc._id r' r rs Hne).
  - intros id' Hne.
    destruct (List.find (Hotel.hasId hotelId) hs); trivial.
    exact (find_updateFirst_other HotelDoc._id id' hotelId _ hs
             (Hotel_applyUpdate_id (Hotel.Pull_rooms r)) Hne).
  - intros h Hh. rewrite Hh.
    rewrite find_updateFirst by reflexivity. rewrite Hh. simpl.
    eexists. split; [reflexivity | split; [reflexivity |]].
    intro x. simpl. rewrite filter_In, negb_true_iff, Nat.eqb_neq. tauto.
Qed.

(** X23: [updateRoom] on a stored Room answers the Room as updated, with the
    id it had; a following [getRoom] answers the same document; the other
    Rooms and all the Hotels are as before. *)
Theorem updateRoom_then_getRoom :
  forall (id : ObjectId) (body : RoomDoc.patch) hs rs room,
    List.find (Room.hasId id) rs = Some room ->
    let w1 := run (updateRoom id body) (quiet hs rs) in
    trace w1 = [Respond 200 (JRoom (RoomDoc.set body room))]
    /\ RoomDoc._id (RoomDoc.set body room) = id
    /\ trace (run (getRoom id) (afterwards w1))
       = [Respond 200 (JRoom (RoomDoc.set body room))]
    /\ (forall id', id' <> id ->
          List.find (Room.hasId id') (rooms w1)
          = List.find (Room.hasId id') rs)
    /\ hotels w1 = hs.
Proof.
  intros id body hs rs room Hr w1.
  assert (E : forall b,
             run (updateRoom id b) (quiet hs rs)
             = mkWorld hs (updateFirst (Room.hasId id) (RoomDoc.set b) rs) []
                       [Respond 200 (JRoom (RoomDoc.set b room))]).
  { intro b.
    unfold run, updateRoom, tryCatch, bind, Room.findByIdAndUpdate,
      storeCall, quiet; simpl. rewrite Hr. reflexivity. }
  unfold w1. rewrite !E; simpl.
  assert (Hid : RoomDoc._id room = id).
  { apply find_some in Hr. destruct Hr as [_ Hr]. apply Nat.eqb_eq. exact Hr. }
  split; [reflexivity | split; [exact Hid | split; [| split]]].
  - unfold run, afterwards, getRoom, tryCatch, bind, Room.findById, storeCall;
      simpl.
    rewrite find_updateFirst by reflexivity. rewrite Hr. reflexivity.
  - intros id' Hne.
    exact (find_updateFirst_other RoomDoc._id id' id (RoomDoc.set body) rs
             (fun _ => eq_refl) Hne).
  - reflexivity.
Qed.

Lemma updateRoom_then_getRoom_witness :
  let room := sampleRoom 7 in
  let rs := [room; sampleRoom 8] in
  let body := RoomDoc.mkPatch (Some "Suite") (Some 150%Q) None None None in
  let w1 := run (updateRoom 7 body) (quiet [] rs) in
  List.find (Room.hasId 7) rs = Some room
  /\ trace w1 = [Respond 200 (JRoom (RoomDoc.set body room))]
  /\ RoomDoc._id (RoomDoc.set body room) = 7%nat
  /\ trace (run (getRoom 7) (afterwards w1))
     = [Respond 200 (JRoom (RoomDoc.set body room))]
  /\ (forall id', id' <> 7%nat ->
        List.find (Room.hasId id') (rooms w1)
        = List.find (Room.hasId id') rs)
  /\ hotels w1 = [].
Proof.
  intros room rs body w1. split; [reflexivity |].
  exact (updateRoom_then_getRoom 7 body [] rs room eq_refl).
Defined.

(** X24: when the store rejects the first call a handler makes, the handler
    passes exactly that error on, answers nothing and writes nothing: so for
    every handler of the two controllers, [getHotels] on any query whose
    parameters cast.  The handlers that await one call at a time have then
    made that one store call only; [countByCity] has started all its
    counts. *)
Theorem a_rejected_first_call_is_passed_on :
  forall cf hs rs e fs,
    let w := mkWorld hs rs (Some e :: fs) [] in
    let passed := mkWorld hs rs fs [Next e] in
    (forall doc, run (createHotel doc) w = passed)
    /\ (forall id body, run (updateHotel id body) w = passed)
    /\ (forall id, run (deleteHotel id) w = passed)
    /\ (forall id, run (getHotel id) w = passed)
    /\ (forall query lim cond hi,
          castLimit (get "limit" query) = Ok lim ->
          Hotel.castOthers cf
            (without ["cheapestPrice"] (without ["min"; "max"] query))
          = Ok cond ->
          castNumber "cheapestPrice" (upperBound (get "max" query)) = Ok hi ->
          run (getHotels cf query) w = passed)
    /\ (forall s,
          trace (run (countByCity (Some s)) w) = [Next e]
          /\ hotels (run (countByCity (Some s)) w) = hs
          /\ rooms (run (countByCity (Some s)) w) = rs)
    /\ run countByType w = passed
    /\ (forall id, run (getHotelRooms id) w = passed)
    /\ (forall hotelId doc, run (createRoom hotelId doc) w = passed)
    /\ (forall id body, run (updateRoom id body) w = passed)
    /\ (forall hotelId id, run (deleteRoom hotelId id) w = passed)
    /\ (forall id, run (getRoom id) w = passed)
    /\ run getRooms w = passed.
Proof.
  intros cf hs rs e fs w passed.
  split; [| split; [| split; [| split; [| split; [| split]]]]];
    try (intros; reflexivity).
  - intros query lim cond hi Hlim Hc Hhi. unfold castLimit in Hlim.
    unfold w, passed, run, getHotels, tryCatch, bind, Hotel.find, Hotel.lift.
    rewrite Hlim, Hc, Hhi. reflexivity.
  - intro s.
    unfold w, run, countByCity, tryCatch, bind, Hotel.countDocuments.
    destruct (mapM_reads_rejected
                (fun city w => Hotel.count (Hotel.ByCity city) (hotels w))
                (JS.split "," s) 0 e fs hs rs [])
      as [fs' R]; [rewrite split_length; lia |].
    cbn [repeat app] in R. rewrite R. simpl. repeat split.
  - split_all; intros; reflexivity.
Qed.

Lemma a_rejected_first_call_is_passed_on_witness :
  let e := DriverError "connection lost" in
  let hs := [sampleHotel 1 "hotel" "Paris" 100 [7%nat]] in
  let rs := [sampleRoom 7] in
  let w := mkWorld hs rs [Some e; None] [] in
  let query := [("city", JS.Str "Paris"); ("max", JS.Str "150");
                ("limit", JS.Str "2")] in
  castLimit (get "limit" query) = Ok (Some (JS.ofZ 2))
  /\ castNumber "cheapestPrice" (upperBound (get "max" query))
     = Ok (Some (JS.ofZ 150))
  /\ run (getHotels sampleCast query) w = mkWorld hs rs [None] [Next e]
  /\ trace (run (countByCity (Some "Paris,Tokyo")) w) = [Next e]
  /\ run (deleteRoom 1 7) w = mkWorld hs rs [None] [Next e].
Proof.
  intros e hs rs w query.
  assert (Hlim : castLimit (get "limit" query) = Ok (Some (JS.ofZ 2)))
    by (vm_compute; reflexivity).
  assert (Hhi : castNumber "cheapestPrice" (upperBound (get "max" query))
                = Ok (Some (JS.ofZ 150))) by (vm_compute; reflexivity).
  destruct (a_rejected_first_call_is_passed_on sampleCast hs rs e [None])
    as (_ & _ & _ & _ & Hfind & Hcity & _ & _ & _ & _ & Hdel & _).
  split; [exact Hlim | split; [exact Hhi | split; [| split]]].
  - exact (Hfind query _ _ _ Hlim eq_refl Hhi).
  - apply Hcity.
  - apply Hdel.
Defined.

(** ** Concrete runs of the statements above *)

Lemma create_refuses_a_stored_id_witness :
  let hs := [sampleHotel 1 "hotel" "Paris" 100 []] in
  let rs := [sampleRoom 7] in
  existsb (Hotel.hasId 1) hs = true
  /\ existsb (Room.hasId 7) rs = true
  /\ run (createHotel (sampleHotel 1 "villa" "Tokyo" 200 [])) (quiet hs rs)
     = mkWorld hs rs [] [Next DuplicateKey]
  /\ run (createRoom 1 (sampleRoom 7)) (quiet hs rs)
     = mkWorld hs rs [] [Next DuplicateKey].
Proof.
  intros hs rs. split; [reflexivity | split; [reflexivity |]].
  destruct (create_refuses_a_stored_id hs rs) as [Hh Hr].
  split.
  - apply (Hh (sampleHotel 1 "villa" "Tokyo" 200 [])). reflexivity.
  - apply (Hr 1%nat (sampleRoom 7)). reflexivity.
Defined.

Lemma lowerBound_is_the_next_odd_witness :
  - 2 ^ 31 <= 50 < 2 ^ 31
  /\ lowerBound (JS.Num (JS.ofZ 50)) = 51
  /\ Z.odd (lowerBound (JS.Str "50")) = true.
Proof.
  destruct lowerBound_is_the_next_odd as [Hodd Hint].
  assert (R : - 2 ^ 31 <= 50 < 2 ^ 31) by lia.
  split; [exact R | split; [exact (Hint 50 R) | apply Hodd]].
Defined.

Lemma getHotels_upper_bound_edges_witness :
  let w := quiet [sampleHotel 1 "hotel" "Paris" 100 []] [] in
  JS.ToBoolean (JS.Num (JS.ofZ 0)) = false
  /\ "abc" <> ""
  /\ JS.StringToNumber "abc" = JS.NaN
  /\ run (getHotels sampleCast [("max", JS.Num (JS.ofZ 0))]) w
     = run (getHotels sampleCast [("max", JS.Undefined)]) w
  /\ run (getHotels sampleCast [("min", JS.Str "50"); ("max", JS.Str "abc")]) w
     = mkWorld (hotels w) (rooms w) (faults w)
               (trace w ++ [Next (CastError "cheapestPrice")])
  /\ lowerBound (JS.Str "abc") = 1.
Proof.
  intro w.
  assert (Hne : "abc" <> "") by discriminate.
  assert (Hnan : JS.StringToNumber "abc" = JS.NaN) by (vm_compute; reflexivity).
  destruct (getHotels_upper_bound_edges sampleCast [] w) as [Hf Hc].
  split; [reflexivity | split; [exact Hne | split; [exact Hnan |]]].
  split; [apply Hf; reflexivity |].
  exact (Hc "abc" (JS.Str "50") Hne Hnan).
Defined.

Lemma countByCity_failures_witness :
  let e := DriverError "connection lost" in
  let hs := [sampleHotel 1 "hotel" "Paris" 100 []] in
  let w' := run (countByCity (Some "Paris,Tokyo"))
                (mkWorld hs [] (repeat None 1 ++ Some e :: []) []) in
  (1 <= commas "Paris,Tokyo")%nat
  /\ trace w' = [Next e] /\ hotels w' = hs /\ rooms w' = [].
Proof.
  intros e hs w'.
  assert (Hk : (1 <= commas "Paris,Tokyo")%nat) by (simpl; lia).
  split; [exact Hk |].
  destruct countByCity_failures as [_ Hrej].
  exact (Hrej "Paris,Tokyo" 1%nat e [] hs [] Hk).
Defined.

Lemma deleteRoom_removes_nothing_else_witness :
  let h1 := sampleHotel 1 "hotel" "Paris" 100 [7%nat; 8%nat] in
  let h2 := sampleHotel 2 "villa" "Tokyo" 200 [7%nat] in
  let hs := [h1; h2] in
  let rs := [sampleRoom 7; sampleRoom 8] in
  let w1 := run (deleteRoom 1 7) (quiet hs rs) in
  List.find (Room.hasId 8) (rooms w1) = List.find (Room.hasId 8) rs
  /\ List.find (Hotel.hasId 2) (hotels w1) = Some h2
  /\ exists h',
       List.find (Hotel.hasId 1) (hotels w1) = Some h'
       /\ HotelDoc.rooms h'
          = List.filter (fun x => negb (Nat.eqb x 7)) (HotelDoc.rooms h1)
       /\ forall x, In x (HotelDoc.rooms h') <->
                    In x (HotelDoc.rooms h1) /\ x <> 7%nat.
Proof.
  intros h1 h2 hs rs w1.
  destruct (deleteRoom_removes_nothing_else 1 7 hs rs) as [Hr [Hh Hown]].
  split; [apply Hr; discriminate | split].
  - transitivity (List.find (Hotel.hasId 2) hs);
      [apply Hh; discriminate | reflexivity].
  - apply Hown. reflexivity.
Defined.
